(** * VN100 HSI estimator: frame codec, reader task and calibration sequencer

    A shallow embedding of [VN100_HSIEstimator.py].  Python [str] values
    are modelled as [string] (one [ascii] per code point, so code points
    of 128 and above stand for every character that is not ASCII), [bytes]
    values as [list byte], Python integers as [Z].  Exceptions are explicit:
    every fallible operation returns an [outcome], and the effects of the
    two tasks (console output, warnings, transport writes, sleeps) are
    collected in a chronological list of [event]s. *)

From Stdlib Require Import ZArith List String Ascii Strings.Byte Bool Lia.
Import ListNotations.
Local Open Scope string_scope.
Local Open Scope Z_scope.

(** ** Exceptions, outcomes and events *)

Definition bytes := list byte.

(** The exceptions the program can meet.  [KeyboardInterrupt] is the only
    one among them that is not a subclass of Python's [Exception]. *)
Inductive exn : Type :=
| UnicodeEncodeError
| ValueError (literal : string)
| IndexError
| EOFError
| KeyboardInterrupt
| SerialException (what : string).

Definition is_Exception (e : exn) : bool :=
  match e with
  | KeyboardInterrupt => false
  | _ => true
  end.

Definition is_KeyboardInterrupt (e : exn) : bool :=
  match e with
  | KeyboardInterrupt => true
  | _ => false
  end.

(** [Blocked] is the outcome of a task that waits for an operator input
    that never comes. *)
Inductive outcome (A : Type) : Type :=
| Ok (a : A)
| Raise (e : exn)
| Blocked.
Arguments Ok {A} a.
Arguments Raise {A} e.
Arguments Blocked {A}.

Inductive event : Type :=
| Print (s : string)
| PrintError (prefix : string) (e : exn)
| Warn (s : string)
| Prompt (s : string)
| Write (b : bytes)
| Sleep (seconds : Z).

(** ** A state, error and output monad

    [M St A] is a computation over a mutable state [St]: it ends with a value,
    an exception or blocked, and always yields the state and the events
    reached so far (Python rolls nothing back when an exception is raised). *)
Section Monad.
Context {St : Type}.

Definition M (A : Type) : Type := St -> outcome A * St * list event.

Definition ret {A} (a : A) : M A := fun s => (Ok a, s, []).

Definition bind {A B} (c : M A) (k : A -> M B) : M B :=
  fun s =>
    match c s with
    | (Ok a, s1, ev1) =>
        let '(r, s2, ev2) := k a s1 in (r, s2, (ev1 ++ ev2)%list)
    | (Raise e, s1, ev1) => (Raise e, s1, ev1)
    | (Blocked, s1, ev1) => (Blocked, s1, ev1)
    end.

Definition raise {A} (e : exn) : M A := fun s => (Raise e, s, []).

Definition lift {A} (r : outcome A) : M A := fun s => (r, s, []).

Definition emit (e : event) : M unit := fun s => (Ok tt, s, [e]).

Definition get : M St := fun s => (Ok s, s, []).

Definition put (s' : St) : M unit := fun _ => (Ok tt, s', []).

(** [try: c  except <class>: h], where [catches] decides the class. *)
Definition try_except {A} (c : M A) (catches : exn -> bool)
    (h : exn -> M A) : M A :=
  fun s =>
    match c s with
    | (Raise e, s1, ev1) =>
        if catches e
        then let '(r, s2, ev2) := h e s1 in (r, s2, (ev1 ++ ev2)%list)
        else (Raise e, s1, ev1)
    | other => other
    end.
End Monad.
Arguments M : clear implicits.

Declare Scope monad_scope.
Delimit Scope monad_scope with monad.
Notation "x <- c ;; k" := (bind c (fun x => k))
  (at level 61, c at next level, right associativity) : monad_scope.
Notation "c ;;; k" := (bind c (fun _ => k))
  (at level 61, right associativity) : monad_scope.
Local Open Scope monad_scope.

(** Pure fallible code uses the same outcomes without a state. *)
Definition obind {A B} (r : outcome A) (k : A -> outcome B) : outcome B :=
  match r with
  | Ok a => k a
  | Raise e => Raise e
  | Blocked => Blocked
  end.

(** ** Python built-ins used by the program *)

Definition CR : ascii := "013"%char.
Definition LF : ascii := "010"%char.
Definition CRLF : string := String CR (String LF "").

Definition ascii_code (c : ascii) : Z := Z.of_N (N_of_ascii c).
Definition byte_code (b : byte) : Z := Z.of_N (Byte.to_N b).

Definition is_ascii (c : ascii) : bool := ascii_code c <? 128.

(** [s.encode('ascii')]: fails on the first character that is not ASCII. *)
Definition encode_ascii (s : string) : outcome bytes :=
  if forallb is_ascii (list_ascii_of_string s)
  then Ok (list_byte_of_string s)
  else Raise UnicodeEncodeError.

(** [b.decode('ascii', errors='ignore')]: bytes of 128 and above are dropped. *)
Definition decode_ascii_ignore (b : bytes) : string :=
  string_of_list_byte (filter (fun x => byte_code x <? 128) b).

(** [str.isspace] on the ASCII range: TAB, LF, VT, FF, CR, FS, GS, RS, US
    and the space. *)
Definition py_isspace (c : ascii) : bool :=
  let n := ascii_code c in
  ((9 <=? n) && (n <=? 13)) || ((28 <=? n) && (n <=? 32)).

(** [Py_ISSPACE], the whitespace that [int] and [float] skip around an
    ASCII text: TAB, LF, VT, FF, CR and the space. *)
Definition c_isspace (c : ascii) : bool :=
  let n := ascii_code c in
  ((9 <=? n) && (n <=? 13)) || (n =? 32).

Fixpoint lstrip (p : ascii -> bool) (s : string) : string :=
  match s with
  | EmptyString => EmptyString
  | String c s' => if p c then lstrip p s' else s
  end.

Fixpoint rstrip (p : ascii -> bool) (s : string) : string :=
  match s with
  | EmptyString => EmptyString
  | String c s' =>
      match rstrip p s' with
      | EmptyString => if p c then EmptyString else String c EmptyString
      | r => String c r
      end
  end.

(** [s.strip()] and [s.strip(chars)]. *)
Definition strip_by (p : ascii -> bool) (s : string) : string :=
  rstrip p (lstrip p s).

Definition str_strip (s : string) : string := strip_by py_isspace s.

Definition str_strip_chars (chars : string) (s : string) : string :=
  strip_by (fun c => existsb (Ascii.eqb c) (list_ascii_of_string chars)) s.

(** [s.split(sep)] for a one-character separator: never an empty list. *)
Fixpoint str_split (sep : ascii) (s : string) : list string :=
  match s with
  | EmptyString => [EmptyString]
  | String c s' =>
      if Ascii.eqb c sep then EmptyString :: str_split sep s'
      else match str_split sep s' with
           | f :: fs => String c f :: fs
           | [] => [String c EmptyString]
           end
  end.

(** [l[i]] for a non-negative constant index. *)
Definition getitem {A} (l : list A) (i : nat) : outcome A :=
  match nth_error l i with
  | Some x => Ok x
  | None => Raise IndexError
  end.

(** [l[i:j]] for non-negative constants [i <= j]. *)
Definition slice {A} (l : list A) (i j : nat) : list A :=
  firstn (j - i) (skipn i l).

Definition digit_val (c : ascii) : option Z :=
  let n := ascii_code c in
  if (48 <=? n) && (n <=? 57) then Some (n - 48) else None.

(** The digits of a decimal literal, single underscores allowed between
    digits; [seen] tells whether the previous character was a digit. *)
Fixpoint int_digits (s : string) (acc : Z) (seen : bool) : option Z :=
  match s with
  | EmptyString => if seen then Some acc else None
  | String c s' =>
      if Ascii.eqb c "_"
      then (if seen then int_digits s' acc false else None)
      else match digit_val c with
           | Some d => int_digits s' (10 * acc + d) true
           | None => None
           end
  end.

(** An optional sign: whether it is a minus, and the text after it. *)
Definition take_sign (s : string) : bool * string :=
  match s with
  | String c r =>
      if Ascii.eqb c "+" then (false, r)
      else if Ascii.eqb c "-" then (true, r)
      else (false, s)
  | EmptyString => (false, s)
  end.

(** [int(s)] in base 10 on ASCII text: surrounding whitespace
    ([Py_ISSPACE]), an optional sign, digits.  (The interpreter's
    configurable limit on the number of digits is not modelled.) *)
Definition py_int (s : string) : outcome Z :=
  let '(neg, body) := take_sign (strip_by c_isspace s) in
  match int_digits body 0 false with
  | Some n => Ok (if neg then - n else n)
  | None => Raise (ValueError s)
  end.

Definition hex_digit (d : Z) : ascii :=
  if d <? 10 then ascii_of_N (Z.to_N (48 + d)) else ascii_of_N (Z.to_N (55 + d)).

Fixpoint hex_upper_aux (fuel : nat) (x : Z) (acc : string) : string :=
  match fuel with
  | O => acc
  | S f =>
      let acc' := String (hex_digit (x mod 16)) acc in
      if x / 16 =? 0 then acc' else hex_upper_aux f (x / 16) acc'
  end.

Definition hex_upper (x : Z) : string :=
  hex_upper_aux (S (Z.to_nat (Z.log2 x))) x "".

(** [f'{x:02X}']: uppercase hexadecimal, zero-padded to width two, the
    sign (if any) before the padding. *)
Definition format_02X (x : Z) : string :=
  if x <? 0 then "-" ++ hex_upper (- x)
  else let h := hex_upper x in
       if (String.length h <? 2)%nat then "0" ++ h else h.

(** ** The estimator object *)

(** One register snapshot: the dictionary with keys ["C"] and ["B"]. *)
Record hsi : Type := mk_hsi { hsi_C : list string; hsi_B : list string }.

Record HSIEstimator : Type := mk_estimator {
  hsi_before : hsi;
  hsi_after : hsi
}.

(** [__init__]: both snapshots start empty. *)
Definition init : HSIEstimator :=
  {| hsi_before := {| hsi_C := []; hsi_B := [] |};
     hsi_after := {| hsi_C := []; hsi_B := [] |} |}.

(** Python truthiness of a list. *)
Definition truthy {A} (l : list A) : bool :=
  match l with [] => false | _ => true end.

(** ** Frame codec *)

Definition vn_checksum (payload : string) : outcome string :=
  obind (encode_ascii payload) (fun bs =>
    let x := fold_left (fun x ch => Z.lxor x (byte_code ch)) bs 0 in
    Ok (format_02X x)).

Definition write_full_vn_message (payload : string) : outcome bytes :=
  obind (vn_checksum payload) (fun cks =>
    encode_ascii ("$" ++ payload ++ "*" ++ cks ++ CRLF)).

(** ** Reader task *)

Definition modify {St} (f : St -> St) : M St unit :=
  fun s => (Ok tt, f s, []).

Definition set_before_C (v : list string) (self : HSIEstimator) :=
  {| hsi_before := {| hsi_C := v; hsi_B := hsi_B (hsi_before self) |};
     hsi_after := hsi_after self |}.
Definition set_before_B (v : list string) (self : HSIEstimator) :=
  {| hsi_before := {| hsi_C := hsi_C (hsi_before self); hsi_B := v |};
     hsi_after := hsi_after self |}.
Definition set_after_C (v : list string) (self : HSIEstimator) :=
  {| hsi_before := hsi_before self;
     hsi_after := {| hsi_C := v; hsi_B := hsi_B (hsi_after self) |} |}.
Definition set_after_B (v : list string) (self : HSIEstimator) :=
  {| hsi_before := hsi_before self;
     hsi_after := {| hsi_C := hsi_C (hsi_after self); hsi_B := v |} |}.

Definition overflow_warning : string :=
  "HSI Requested more than 2 times. Something is wrong!".

(** Lines 50-55: the message as read, its fields and its type tag, or
    [None] for a message that is empty once stripped. *)
Definition decode (raw : bytes)
  : outcome (option (string * list string * string)) :=
  let msg := str_strip (decode_ascii_ignore raw) in
  if String.eqb msg "" then Ok None
  else
    obind (getitem (str_split "*" msg) 0) (fun payload =>
    let parsed_msg := str_split "," payload in
    obind (getitem parsed_msg 0) (fun tag =>
    Ok (Some (msg, parsed_msg, str_strip_chars "$" tag)))).

(** Line 58: [msg_type == 'VNRRG' and int(parsed_msg[1]) == 47], the
    right operand evaluated only when the left one holds. *)
Definition is_hsi_reply (msg_type : string) (parsed_msg : list string)
  : outcome bool :=
  if String.eqb msg_type "VNRRG"
  then obind (getitem parsed_msg 1) (fun reg =>
       obind (py_int reg) (fun n => Ok (n =? 47)))
  else Ok false.

(** Lines 60-67. *)
Definition capture (parsed_msg : list string) : M HSIEstimator unit :=
  self <- get ;;
  if negb (truthy (hsi_C (hsi_before self))) then
    modify (set_before_C (slice parsed_msg 2 11)) ;;;
    modify (set_before_B (slice parsed_msg 11 14))
  else if negb (truthy (hsi_C (hsi_after self))) then
    modify (set_after_C (slice parsed_msg 2 11)) ;;;
    modify (set_after_B (slice parsed_msg 11 14))
  else emit (Warn overflow_warning).

(** The body of the [try] block, lines 50-77; [line] is what
    [readline()] returned or raised. *)
Definition reader_body (line : outcome bytes) : M HSIEstimator unit :=
  raw <- lift line ;;
  d <- lift (decode raw) ;;
  match d with
  | None => ret tt
  | Some (msg, parsed_msg, msg_type) =>
      hit <- lift (is_hsi_reply msg_type parsed_msg) ;;
      if hit then capture parsed_msg
      else if String.eqb msg_type "VNERR" then
        code <- lift (getitem parsed_msg 1) ;;
        emit (Warn ("Error code " ++ code ++ " in vn100 node"))
      else emit (Print ("Unhandled Message: " ++ msg))
  end.

(** One iteration of the loop: the body under [except Exception]. *)
Definition reader_iter (line : outcome bytes) : M HSIEstimator unit :=
  try_except (reader_body line) is_Exception
    (fun e => emit (PrintError "Error in Port 1: " e)).

(** The task, run on the reads it makes while [port_active] holds. *)
Fixpoint reader (reads : list (outcome bytes)) : M HSIEstimator unit :=
  match reads with
  | [] => emit (Print "Serial Port 1 Closing")
  | line :: rest => reader_iter line ;;; reader rest
  end.

(** Reading the result of a run. *)
Definition result_of {St A} (r : outcome A * St * list event) : outcome A :=
  fst (fst r).
Definition state_of {St A} (r : outcome A * St * list event) : St :=
  snd (fst r).
Definition events_of {St A} (r : outcome A * St * list event) : list event :=
  snd r.

(** ** [float(s)]

    A binary64 value is kept as an integer significand and a binary
    exponent; the sign of zero, which no comparison sees, is dropped. *)
Inductive float64 : Type :=
| FNaN
| FInf (negative : bool)
| FFinite (m e : Z).          (* the number m * 2^e *)

(** Nearest integer to [num / den], ties to even ([0 < den]). *)
Definition round_half_even (num den : Z) : Z :=
  let q := num / den in
  let r := num mod den in
  match 2 * r ?= den with
  | Lt => q
  | Gt => q + 1
  | Eq => if Z.even q then q else q + 1
  end.

(** [n / d] rounded to the nearest binary64 ([0 < n], [0 < d]): 53 bits of
    significand, exponents from -1074 up, infinity from 2^1024 on. *)
Definition round_binary64 (n d : Z) : float64 :=
  let k := Z.log2 n - Z.log2 d in
  let k' := if (if k <? 0 then n * 2 ^ (- k) <? d else n <? d * 2 ^ k)
            then k - 1 else k in                (* 2^k' <= n/d < 2^(k'+1) *)
  let e := Z.max (k' - 52) (-1074) in
  let m := if e <? 0 then round_half_even (n * 2 ^ (- e)) d
           else round_half_even n (d * 2 ^ e) in
  let '(m, e) := if m =? 2 ^ 53 then (2 ^ 52, e + 1) else (m, e) in
  if 971 <? e then FInf false else FFinite m e.

Definition float_neg (x : float64) : float64 :=
  match x with
  | FNaN => FNaN
  | FInf b => FInf (negb b)
  | FFinite m e => FFinite (- m) e
  end.

(** The value [mant * 10^exp10] as a binary64 ([0 <= mant]). *)
Definition decimal_to_float (mant exp10 : Z) : float64 :=
  if mant =? 0 then FFinite 0 0
  else if exp10 <? 0 then round_binary64 mant (10 ^ (- exp10))
  else round_binary64 (mant * 10 ^ exp10) 1.

(** [x <= k] and [x >= k] for a float [x] and an integer [k]: exact, and
    false as soon as [x] is a NaN. *)
Definition float_le_int (x : float64) (k : Z) : bool :=
  match x with
  | FNaN => false
  | FInf negative => negative
  | FFinite m e => if e <? 0 then m <=? k * 2 ^ (- e) else m * 2 ^ e <=? k
  end.

Definition float_ge_int (x : float64) (k : Z) : bool :=
  match x with
  | FNaN => false
  | FInf negative => negb negative
  | FFinite m e => if e <? 0 then k * 2 ^ (- e) <=? m else k <=? m * 2 ^ e
  end.

(** A [digitpart]: digits, single underscores allowed between two digits.
    Returns the accumulated value, the number of digits read and the rest. *)
Fixpoint scan_digitpart (s : string) (acc cnt : Z) : Z * Z * string :=
  match s with
  | EmptyString => (acc, cnt, s)
  | String c s' =>
      match digit_val c with
      | Some d => scan_digitpart s' (10 * acc + d) (cnt + 1)
      | None =>
          if Ascii.eqb c "_" && (0 <? cnt) then
            match s' with
            | String c' _ =>
                match digit_val c' with
                | Some _ => scan_digitpart s' acc cnt
                | None => (acc, cnt, s)
                end
            | EmptyString => (acc, cnt, s)
            end
          else (acc, cnt, s)
      end
  end.

(** [floatnumber]: mantissa and decimal exponent of the whole of [s]. *)
Definition parse_floatnumber (s : string) : option (Z * Z) :=
  let '(ip, ic, r1) := scan_digitpart s 0 0 in
  let '(m, fc, r2) :=
    match r1 with
    | String "." r => scan_digitpart r ip 0
    | _ => (ip, 0, r1)
    end in
  if ic + fc =? 0 then None
  else match r2 with
       | EmptyString => Some (m, - fc)
       | String c r3 =>
           if Ascii.eqb c "e" || Ascii.eqb c "E" then
             let '(eneg, r4) := take_sign r3 in
             let '(ev, ec, r5) := scan_digitpart r4 0 0 in
             if (0 <? ec) && String.eqb r5 ""
             then Some (m, (if eneg then - ev else ev) - fc)
             else None
           else None
       end.

Definition lower (c : ascii) : ascii :=
  let n := ascii_code c in
  if (65 <=? n) && (n <=? 90) then ascii_of_N (Z.to_N (n + 32)) else c.

Fixpoint lowercase (s : string) : string :=
  match s with
  | EmptyString => EmptyString
  | String c s' => String (lower c) (lowercase s')
  end.

(** [float(s)] on ASCII text: surrounding whitespace ([Py_ISSPACE]), an
    optional sign, then [inf], [infinity], [nan] (in any case) or a
    decimal number, rounded to the nearest binary64.
    (Digits and spaces outside ASCII, which [float] also takes, are not
    modelled: such a string is refused here.) *)
Definition py_float (s : string) : outcome float64 :=
  let '(neg, body) := take_sign (strip_by c_isspace s) in
  let abs :=
    let w := lowercase body in
    if String.eqb w "inf" || String.eqb w "infinity" then Some (FInf false)
    else if String.eqb w "nan" then Some FNaN
    else match parse_floatnumber body with
         | Some (mant, exp10) => Some (decimal_to_float mant exp10)
         | None => None
         end in
  match abs with
  | Some x => Ok (if neg then float_neg x else x)
  | None => Raise (ValueError s)
  end.

(** ** Calibration sequencer

    The sequencer runs in the foreground against the operator's console.
    Its state is the script of what the operator will do at the successive
    calls of [input]. *)
Inductive key : Type :=
| Typed (s : string)           (* a line of text, then Enter *)
| CtrlC                        (* KeyboardInterrupt *)
| CtrlD.                       (* end of input: EOFError *)

Definition console := list key.

Definition input (prompt : string) : M console string :=
  fun keys =>
    match keys with
    | [] => (Blocked, [], [Prompt prompt])
    | Typed s :: rest => (Ok s, rest, [Prompt prompt])
    | CtrlC :: rest => (Raise KeyboardInterrupt, rest, [Prompt prompt])
    | CtrlD :: rest => (Raise EOFError, rest, [Prompt prompt])
    end.

(** A [while] loop whose body answers [Some a] to leave with [a] and
    [None] to go round again. *)
Fixpoint loop {St A} (fuel : nat) (body : M St (option A)) : M St A :=
  match fuel with
  | O => fun s => (Blocked, s, [])
  | S n => r <- body ;;
           match r with
           | Some a => ret a
           | None => loop n body
           end
  end.

(** A loop that calls [input] once per round goes round at most once per
    scripted key, and once more to block. *)
Definition input_loop {A} (body : M console (option A)) : M console A :=
  fun keys => loop (S (List.length keys)) body keys.

Definition continue_prompt : string := "Would you like to continue? (y/n): ".
Definition rate_prompt : string := "What convergence rate would you like? (1-5): ".

(** Lines 87-97, one round. *)
Definition check_to_continue_body : M console (option bool) :=
  try_except
    (passed <- input continue_prompt ;;
     if String.eqb passed "y" then ret (Some true)
     else if String.eqb passed "n" then ret (Some false)
     else emit (Print "Invalid Response! Try Again...") ;;; ret None)
    is_KeyboardInterrupt
    (fun _ =>
       emit (Print "Breaking out of checking loop and stopping program...") ;;;
       ret (Some false)).

Definition check_to_continue : M console bool :=
  input_loop check_to_continue_body.

Definition invalid_rate_warning : string :=
  "Invalid Convergence Rate! It must be between 1 and 5! Give it another shot.".

(** Lines 161-170, one round; [Some tt] once [getting_input] is cleared. *)
Definition conv_rate_body : M console (option unit) :=
  try_except
    (conv_rate <- input rate_prompt ;;
     x <- lift (py_float conv_rate) ;;
     in_range <- (if float_le_int x 5
                  then y <- lift (py_float conv_rate) ;; ret (float_ge_int y 1)
                  else ret false) ;;
     if in_range : bool then
       start_msg <- lift (write_full_vn_message ("VNWRG,44,1,1," ++ conv_rate)) ;;
       emit (Write start_msg) ;;;
       ret (Some tt)
     else emit (Warn invalid_rate_warning) ;;; ret None)
    is_KeyboardInterrupt
    (fun _ =>
       emit (Print "HSI Input Never Gathered. Stopping Program...") ;;;
       ret None).

Definition ask_conv_rate : M console unit := input_loop conv_rate_body.

(** Lines 143-150 and 187-194: the snapshot is shown when its matrix is
    not empty. *)
Definition show_hsi (s : hsi) : M console unit :=
  if truthy (hsi_C s) then
    emit (Print "HSI has been updated. Values are:") ;;;
    c0 <- lift (getitem (hsi_C s) 0) ;;
    c1 <- lift (getitem (hsi_C s) 1) ;;
    c2 <- lift (getitem (hsi_C s) 2) ;;
    c3 <- lift (getitem (hsi_C s) 3) ;;
    c4 <- lift (getitem (hsi_C s) 4) ;;
    c5 <- lift (getitem (hsi_C s) 5) ;;
    c6 <- lift (getitem (hsi_C s) 6) ;;
    c7 <- lift (getitem (hsi_C s) 7) ;;
    c8 <- lift (getitem (hsi_C s) 8) ;;
    emit (Print ("C = [" ++ c0 ++ "," ++ c1 ++ "," ++ c2 ++ "]" ++ String LF
                 ("    [" ++ c3 ++ "," ++ c4 ++ "," ++ c5 ++ "]" ++ String LF
                 ("    [" ++ c6 ++ "," ++ c7 ++ "," ++ c8 ++ "]" ++ String LF
                 "]")))) ;;;
    b0 <- lift (getitem (hsi_B s) 0) ;;
    b1 <- lift (getitem (hsi_B s) 1) ;;
    b2 <- lift (getitem (hsi_B s) 2) ;;
    emit (Print ("B = [" ++ b0 ++ ", " ++ b1 ++ ", " ++ b2 ++ "]"))
  else ret tt.

(** [run_hsi_calibration].  The reader task fills the two snapshots in the
    background; [before_seen] and [after_seen] are what the sequencer finds
    in [hsi_before] and [hsi_after] when its wait for each of them ends
    (lines 141 and 185: the wait itself has no effect and ends at the
    latest after 15 seconds).  Writes to the transport are taken to
    succeed. *)
Definition run_hsi_calibration (before_seen after_seen : hsi)
  : M console unit :=
  emit (Print "Turning Serial Port Async Messages Off") ;;;
  freq_off_msg <- lift (write_full_vn_message "VNWRG,07,0,1") ;;
  emit (Write freq_off_msg) ;;;
  emit (Print "Checking Value for HSI Parameters Currently") ;;;
  check_hsi_msg <- lift (write_full_vn_message "VNRRG,47") ;;
  emit (Write check_hsi_msg) ;;;
  show_hsi before_seen ;;;
  cont <- check_to_continue ;;
  if negb cont then emit (Print "Stopping Before The HSI Estimation Step")
  else
    emit (Print "Moving on to HSI Estiamtion Step") ;;;
    ask_conv_rate ;;;
    emit (Print "Waiting 2min for the HSI estimation process to complete.") ;;;
    emit (Print "While this is running, please rotate the vehicle in all axes, trying to go through all positions") ;;;
    emit (Sleep 120) ;;;
    emit (Write check_hsi_msg) ;;;
    show_hsi after_seen ;;;
    emit (Print "Stopping the estimation process and applying changes to the measurements.") ;;;
    start_msg <- lift (write_full_vn_message "VNWRG,44,0,3,1") ;;
    emit (Write start_msg) ;;;
    emit (Print "Moving on to save the register.") ;;;
    cont <- check_to_continue ;;
    if negb cont then emit (Print "Stopping Before Saving the Results!")
    else
      reset_async_output <- lift (write_full_vn_message "VNWRG,7,40,1") ;;
      emit (Write reset_async_output) ;;;
      emit (Sleep 1) ;;;
      save_settings_msg <- lift (write_full_vn_message "VNWNV") ;;
      emit (Write save_settings_msg) ;;;
      emit (Print "HSI process has completed and saved. Have a good day and good luck!").

(** The frames among the events, in the order written. *)
Fixpoint writes (evs : list event) : list bytes :=
  match evs with
  | [] => []
  | Write b :: rest => b :: writes rest
  | _ :: rest => writes rest
  end.

(** ** Vocabulary of the specification *)

(** The frame format in the specification's words: the XOR of the
    payload's character codes, written as two digits taken from the
    uppercase hexadecimal alphabet, between ['*'] and the line end. *)
Definition spec_checksum (payload : string) : Z :=
  fold_right (fun c acc => Z.lxor (ascii_code c) acc) 0
    (list_ascii_of_string payload).

Definition spec_hex_digit (d : Z) : ascii :=
  match String.get (Z.to_nat d) "0123456789ABCDEF" with
  | Some c => c
  | None => "?"%char
  end.

Definition spec_hex_pair (x : Z) : string :=
  String (spec_hex_digit (x / 16)) (String (spec_hex_digit (x mod 16)) "").

Definition spec_frame (payload : string) : string :=
  "$" ++ payload ++ "*" ++ spec_hex_pair (spec_checksum payload) ++ CRLF.

Definition all_ascii (s : string) : bool :=
  forallb is_ascii (list_ascii_of_string s).

Definition contains (c : ascii) (s : string) : bool :=
  existsb (Ascii.eqb c) (list_ascii_of_string s).

(** The field sequence the reader works with: the type tag, then the
    fields after it. *)
Definition frame_fields (raw : bytes) : outcome (option (list string)) :=
  obind (decode raw) (fun d =>
    match d with
    | None => Ok None
    | Some (_, parsed_msg, msg_type) => Ok (Some (msg_type :: tl parsed_msg))
    end).

(** A snapshot is populated when its matrix is not empty. *)
Definition populated (s : hsi) : bool := truthy (hsi_C s).

(** The fields of a line that the reader takes for an acknowledgment of
    register 47, [None] for every other line. *)
Definition hsi_reply_fields (raw : bytes) : option (list string) :=
  match decode raw with
  | Ok (Some (_, parsed_msg, msg_type)) =>
      match is_hsi_reply msg_type parsed_msg with
      | Ok true => Some parsed_msg
      | _ => None
      end
  | _ => None
  end.

(** The snapshot that [capture] stores for the fields of a line. *)
Definition snapshot_of (parsed_msg : list string) : hsi :=
  {| hsi_C := slice parsed_msg 2 11; hsi_B := slice parsed_msg 11 14 |}.

(** A blank line: nothing but ASCII whitespace (possibly nothing at all). *)
Definition blank (raw : bytes) : bool :=
  forallb (fun b => py_isspace (ascii_of_byte b)) raw.

(** A read that is not a register-47 acknowledgment: any other line, or a
    transport fault of class [Exception]. *)
Definition other_read (r : outcome bytes) : Prop :=
  match r with
  | Ok raw => hsi_reply_fields raw = None
  | Raise e => is_Exception e = true
  | Blocked => False
  end.

(** A reply to the continue prompt that is neither ["y"] nor ["n"]. *)
Definition invalid_reply (k : key) : Prop :=
  match k with
  | Typed s => s <> "y" /\ s <> "n"
  | _ => False
  end.

(** The operator declines (["n"]) or cancels (Ctrl-C). *)
Definition declines (k : key) : Prop := k = Typed "n" \/ k = CtrlC.

(** A snapshot that [show_hsi] can print: empty, or with at least nine
    matrix entries and three bias entries. *)
Definition showable (s : hsi) : Prop :=
  hsi_C s = [] \/ (9 <= List.length (hsi_C s) /\ 3 <= List.length (hsi_B s))%nat.

(** Whether a text starts, or ends, with a given character. *)
Definition starts_with (c : ascii) (s : string) : bool :=
  match s with
  | String x _ => Ascii.eqb x c
  | EmptyString => false
  end.

Fixpoint ends_with (c : ascii) (s : string) : bool :=
  match s with
  | EmptyString => false
  | String x EmptyString => Ascii.eqb x c
  | String _ s' => ends_with c s'
  end.

(** A computation that ends with a value or with an exception of class
    [Exception]: what the reader's handler lets the loop survive. *)
Definition tame {A} (r : outcome A) : Prop :=
  match r with
  | Ok _ => True
  | Raise e => is_Exception e = true
  | Blocked => False
  end.

(** A valid acknowledgment of register 47: the reader takes the line for
    one, and it carries data after the register number. *)
Definition valid_hsi_reply (raw : bytes) : Prop :=
  exists parsed_msg,
    hsi_reply_fields raw = Some parsed_msg /\ (2 < List.length parsed_msg)%nat.

(** Sample traffic: a full acknowledgment of register 47, a second one,
    and an error notification (the reader does not check the checksum of
    what it reads). *)
Definition sample_reply_1 : bytes :=
  list_byte_of_string ("$VNRRG,47,1,2,3,4,5,6,7,8,9,0.1,0.2,0.3*5E" ++ CRLF).
Definition sample_reply_2 : bytes :=
  list_byte_of_string ("$VNRRG,47,9,8,7,6,5,4,3,2,1,0.3,0.2,0.1*5E" ++ CRLF).
Definition sample_error : bytes :=
  list_byte_of_string ("$VNERR,03*72" ++ CRLF).
Definition sample_hsi_1 : hsi :=
  {| hsi_C := ["1"; "2"; "3"; "4"; "5"; "6"; "7"; "8"; "9"];
     hsi_B := ["0.1"; "0.2"; "0.3"] |}.
Definition sample_hsi_2 : hsi :=
  {| hsi_C := ["9"; "8"; "7"; "6"; "5"; "4"; "3"; "2"; "1"];
     hsi_B := ["0.3"; "0.2"; "0.1"] |}.

Definition sample_fields_1 : list string :=
  ["$VNRRG"; "47"; "1"; "2"; "3"; "4"; "5"; "6"; "7"; "8"; "9";
   "0.1"; "0.2"; "0.3"].
Definition sample_fields_2 : list string :=
  ["$VNRRG"; "47"; "9"; "8"; "7"; "6"; "5"; "4"; "3"; "2"; "1";
   "0.3"; "0.2"; "0.1"].

(** What the console shows while the operator answers the continue
    prompt with the given keys. *)
Definition continue_dialogue (k : key) : list event :=
  match k with
  | Typed s =>
      if String.eqb s "y" || String.eqb s "n" then [Prompt continue_prompt]
      else [Prompt continue_prompt; Print "Invalid Response! Try Again..."]
  | CtrlC =>
      [Prompt continue_prompt;
       Print "Breaking out of checking loop and stopping program..."]
  | CtrlD => [Prompt continue_prompt]
  end.

(** The two frames that open every run: periodic output off, then the
    request for register 47. *)
Definition opening_frames : list bytes :=
  [list_byte_of_string ("$VNWRG,07,0,1*70" ++ CRLF);
   list_byte_of_string ("$VNRRG,47*70" ++ CRLF)].

(** The decimal [mant * 10^exp10] lies in the closed interval [lo, hi]
    (integers), without any rounding. *)
Definition decimal_between (lo hi mant exp10 : Z) : Prop :=
  if exp10 <? 0
  then lo * 10 ^ (- exp10) <= mant <= hi * 10 ^ (- exp10)
  else lo <= mant * 10 ^ exp10 <= hi.

(** A loop body that goes round again only after it has taken a key from
    the operator. *)
Definition consumes {A} (body : M console (option A)) : Prop :=
  forall keys keys' ev,
    body keys = (Ok None, keys', ev) -> (List.length keys' < List.length keys)%nat.

(** [",".join(fields)]. *)
Fixpoint join_fields (fields : list string) : string :=
  match fields with
  | [] => ""
  | [f] => f
  | f :: rest => f ++ "," ++ join_fields rest
  end.

(** A text that can stand as one field of a payload: ASCII, with neither
    [','] nor ['*'] in it. *)
Definition plain_field (f : string) : bool :=
  all_ascii f && negb (contains "," f) && negb (contains "*" f).

(** The byte that a character of 128 and above stands for is dropped by
    the reader's decoding. *)
Definition not_ascii_byte (b : byte) : bool := negb (byte_code b <? 128).

(** A run of bytes with no ['*'] among them. *)
Definition star_free (a : bytes) : bool :=
  forallb (fun b => negb (Ascii.eqb "*" (ascii_of_byte b))) a.

(** The shape the slices give a snapshot: at most nine matrix entries, at
    most three bias entries, and a bias only beside a full matrix. *)
Definition tidy_snapshot (s : hsi) : Prop :=
  (List.length (hsi_C s) <= 9)%nat /\
  (List.length (hsi_B s) <= 3)%nat /\
  (hsi_B s <> [] -> List.length (hsi_C s) = 9%nat).

(** A store whose snapshots have that shape and where "after" is
    populated only if "before" is. *)
Definition tidy_store (st : HSIEstimator) : Prop :=
  tidy_snapshot (hsi_before st) /\
  tidy_snapshot (hsi_after st) /\
  (populated (hsi_after st) = true -> populated (hsi_before st) = true).

(** The events that only show on the console. *)
Definition console_output (e : event) : bool :=
  match e with
  | Print _ | PrintError _ _ | Warn _ => true
  | Prompt _ | Write _ | Sleep _ => false
  end.

(** How the continue prompt ends on a key that is not an invalid reply. *)
Definition gate_answer (k : key) : outcome bool :=
  match k with
  | Typed s => Ok (String.eqb s "y")
  | CtrlC => Ok false
  | CtrlD => Raise EOFError
  end.

(** A key that makes the convergence-rate prompt come again: Ctrl-C, or a
    number that the range test refuses. *)
Definition rate_noise (k : key) : Prop :=
  k = CtrlC \/
  exists s x, k = Typed s /\ py_float s = Ok x /\
              float_le_int x 5 && float_ge_int x 1 = false.

(** A reply that the convergence-rate prompt takes, and the start
    command it makes. *)
Definition accepted_rate (s : string) (frame : bytes) : Prop :=
  exists x, py_float s = Ok x /\
            float_le_int x 5 = true /\ float_ge_int x 1 = true /\
            write_full_vn_message ("VNWRG,44,1,1," ++ s) = Ok frame.

(** What the console shows for a key at the convergence-rate prompt. *)
Definition rate_dialogue (k : key) : list event :=
  match k with
  | CtrlC => [Prompt rate_prompt;
              Print "HSI Input Never Gathered. Stopping Program..."]
  | _ => [Prompt rate_prompt; Warn invalid_rate_warning]
  end.

(** What reaches the device or holds the run up: writes and sleeps. *)
Definition device_action (e : event) : bool :=
  match e with
  | Write _ | Sleep _ => true
  | _ => false
  end.

Definition device_actions (evs : list event) : list event :=
  filter device_action evs.

Definition read_frame : bytes := list_byte_of_string ("$VNRRG,47*70" ++ CRLF).
Definition stop_frame : bytes := list_byte_of_string ("$VNWRG,44,0,3,1*68" ++ CRLF).
Definition restore_frame : bytes := list_byte_of_string ("$VNWRG,7,40,1*74" ++ CRLF).
Definition save_frame : bytes := list_byte_of_string ("$VNWNV*57" ++ CRLF).

(** The device-facing schedule of a complete run, for a given start
    command. *)
Definition full_schedule (start : bytes) : list event :=
  [Write (list_byte_of_string ("$VNWRG,07,0,1*70" ++ CRLF));
   Write read_frame;
   Write start;
   Sleep 120;
   Write read_frame;
   Write stop_frame;
   Write restore_frame;
   Sleep 1;
   Write save_frame].

(** The run cut in stages, for the proofs that follow it prompt by
    prompt ([run_by_stages] shows the cut to be exact): what is printed
    and written before the first display, then lines 143-155, lines
    158-202 and lines 203-216. *)
Definition opening_events : list event :=
  [Print "Turning Serial Port Async Messages Off";
   Write (list_byte_of_string ("$VNWRG,07,0,1*70" ++ CRLF));
   Print "Checking Value for HSI Parameters Currently";
   Write read_frame].

Definition saving_stage : M console unit :=
  cont <- check_to_continue ;;
  if negb cont then emit (Print "Stopping Before Saving the Results!")
  else
    emit (Write restore_frame) ;;;
    emit (Sleep 1) ;;;
    emit (Write save_frame) ;;;
    emit (Print "HSI process has completed and saved. Have a good day and good luck!").

Definition estimation_stage (after_seen : hsi) : M console unit :=
  emit (Print "Moving on to HSI Estiamtion Step") ;;;
  ask_conv_rate ;;;
  emit (Print "Waiting 2min for the HSI estimation process to complete.") ;;;
  emit (Print "While this is running, please rotate the vehicle in all axes, trying to go through all positions") ;;;
  emit (Sleep 120) ;;;
  emit (Write read_frame) ;;;
  show_hsi after_seen ;;;
  emit (Print "Stopping the estimation process and applying changes to the measurements.") ;;;
  emit (Write stop_frame) ;;;
  emit (Print "Moving on to save the register.") ;;;
  saving_stage.

Definition gate_stage (before_seen after_seen : hsi) : M console unit :=
  show_hsi before_seen ;;;
  cont <- check_to_continue ;;
  if negb cont then emit (Print "Stopping Before The HSI Estimation Step")
  else estimation_stage after_seen.


(** ** Lifecycle of the reader thread

    The [Thread] objects are numbered in the order they are created;
    [threads] holds what [is_alive()] answers for each of them, and
    [port_thread] is the number of the one the estimator holds.  A thread
    is alive from the return of its [start()] until its [reader] returns,
    which is a step of the environment ([thread_exit]). *)
Record lifecycle : Type := mk_lifecycle {
  port_active : bool;
  port_thread : option nat;
  threads : list bool
}.

(** [__init__], lines 22-23. *)
Definition lifecycle_init : lifecycle :=
  {| port_active := false; port_thread := None; threads := [] |}.

Definition is_alive (self : lifecycle) (t : nat) : bool :=
  nth t (threads self) false.

Fixpoint set_alive (t : nat) (b : bool) (l : list bool) : list bool :=
  match l, t with
  | [], _ => []
  | _ :: l', O => b :: l'
  | x :: l', S t' => x :: set_alive t' b l'
  end.

Definition set_port_active (b : bool) (self : lifecycle) : lifecycle :=
  {| port_active := b; port_thread := port_thread self; threads := threads self |}.

(** [self.port_thread = threading.Thread(...)]: a new object, not started. *)
Definition new_thread (self : lifecycle) : lifecycle :=
  {| port_active := port_active self;
     port_thread := Some (List.length (threads self));
     threads := (threads self ++ [false])%list |}.

Definition mark_thread (b : bool) (t : nat) (self : lifecycle) : lifecycle :=
  {| port_active := port_active self;
     port_thread := port_thread self;
     threads := set_alive t b (threads self) |}.

(** The reader of thread [t] returns (or dies). *)
Definition thread_exit (t : nat) (self : lifecycle) : lifecycle :=
  mark_thread false t self.

(** Lines 101-114.  [spawn] is what [Thread.start()] does: it returns, or
    raises. *)
Definition start_reading_threads (spawn : outcome unit) : M lifecycle unit :=
  try_except
    (self <- get ;;
     if negb (port_active self) then
       modify (set_port_active true) ;;;
       self <- get ;;
       if match port_thread self with
          | None => true
          | Some t => negb (is_alive self t)
          end
       then
         modify new_thread ;;;
         lift spawn ;;;
         modify (fun self =>
                   match port_thread self with
                   | Some t => mark_thread true t self
                   | None => self
                   end) ;;;
         emit (Print "Started Port 1 reading thread")
       else ret tt
     else ret tt)
    is_Exception
    (fun e => emit (PrintError "Exception! " e)).

(** Lines 118-123.  [ends_in_time] tells whether the thread ends within
    the two seconds of the [join]. *)
Definition stop_reading_threads (ends_in_time : bool) : M lifecycle unit :=
  self <- get ;;
  if port_active self then
    modify (set_port_active false) ;;;
    self <- get ;;
    match port_thread self with
    | Some t =>
        if is_alive self t
        then (if ends_in_time then modify (thread_exit t) else ret tt)
        else ret tt
    | None => ret tt
    end
  else ret tt.

(** What can happen to the lifecycle, in any order. *)
Inductive action : Type :=
| DoStart (spawn : outcome unit)
| DoStop (ends_in_time : bool)
| ThreadExit (t : nat).

Definition act (a : action) (self : lifecycle) : lifecycle :=
  match a with
  | DoStart spawn => state_of (start_reading_threads spawn self)
  | DoStop ends_in_time => state_of (stop_reading_threads ends_in_time self)
  | ThreadExit t => thread_exit t self
  end.

Definition run_actions (acts : list action) (self : lifecycle) : lifecycle :=
  fold_left (fun s a => act a s) acts self.

(** Every live thread is the one the estimator holds. *)
Definition one_reader (self : lifecycle) : Prop :=
  forall t, is_alive self t = true -> port_thread self = Some t.

(** ** [main]

    The estimator's two halves side by side: the lifecycle, and the
    console the sequencer talks to.  [port] is what opening the serial
    port does in [__init__]; what the reader thread prints meanwhile is
    not part of the events. *)
Definition on_lifecycle {A} (c : M lifecycle A) : M (lifecycle * console) A :=
  fun s => let '(r, l, ev) := c (fst s) in (r, (l, snd s), ev).

Definition on_console {A} (c : M console A) : M (lifecycle * console) A :=
  fun s => let '(r, k, ev) := c (snd s) in (r, (fst s, k), ev).

Definition main (port spawn : outcome unit) (before_seen after_seen : hsi)
    (ends_in_time : bool) : M (lifecycle * console) unit :=
  lift port ;;;
  on_lifecycle (start_reading_threads spawn) ;;;
  on_console (run_hsi_calibration before_seen after_seen) ;;;
  on_lifecycle (stop_reading_threads ends_in_time).

(** * Properties *)

(** ** Frame codec *)

Lemma byte_code_of_ascii c : byte_code (byte_of_ascii c) = ascii_code c.
Proof.
  unfold byte_code, ascii_code. f_equal.
  destruct c as [[] [] [] [] [] [] [] []]; reflexivity.
Qed.

Lemma ascii_code_range c : 0 <= ascii_code c < 256.
Proof.
  unfold ascii_code. pose proof (N_ascii_bounded c). lia.
Qed.

Lemma lxor_below n a b :
  0 < n -> 0 <= a < 2 ^ n -> 0 <= b < 2 ^ n -> 0 <= Z.lxor a b < 2 ^ n.
Proof.
  intros Hn Ha Hb.
  assert (H0 : 0 <= Z.lxor a b) by (apply Z.lxor_nonneg; lia).
  split; [exact H0|].
  destruct (Z.eq_dec (Z.lxor a b) 0) as [E|E].
  - rewrite E. apply Z.pow_pos_nonneg; lia.
  - apply Z.log2_lt_pow2; [lia|].
    pose proof (Z.log2_lxor a b (proj1 Ha) (proj1 Hb)) as L.
    assert (Z.log2 a < n).
    { destruct (Z.eq_dec a 0) as [->|]; [simpl; lia|]. apply Z.log2_lt_pow2; lia. }
    assert (Z.log2 b < n).
    { destruct (Z.eq_dec b 0) as [->|]; [simpl; lia|]. apply Z.log2_lt_pow2; lia. }
    lia.
Qed.

Lemma all_ascii_cons c s :
  all_ascii (String c s) = is_ascii c && all_ascii s.
Proof. reflexivity. Qed.

Lemma spec_checksum_range s : all_ascii s = true -> 0 <= spec_checksum s < 128.
Proof.
  induction s as [|c s IH]; intros H.
  - cbn. lia.
  - rewrite all_ascii_cons in H. apply andb_true_iff in H as [Hc Hs].
    change (spec_checksum (String c s)) with (Z.lxor (ascii_code c) (spec_checksum s)).
    apply (lxor_below 7); [lia| |auto].
    unfold is_ascii in Hc. apply Z.ltb_lt in Hc.
    pose proof (ascii_code_range c). lia.
Qed.

Lemma xor_loop_spec s acc :
  fold_left (fun x ch => Z.lxor x (byte_code ch)) (list_byte_of_string s) acc
  = Z.lxor acc (spec_checksum s).
Proof.
  revert acc. induction s as [|c s IH]; intros acc.
  - cbn. now rewrite Z.lxor_0_r.
  - change (list_byte_of_string (String c s))
      with (byte_of_ascii c :: list_byte_of_string s).
    cbn [fold_left]. rewrite IH, byte_code_of_ascii.
    change (spec_checksum (String c s)) with (Z.lxor (ascii_code c) (spec_checksum s)).
    now rewrite Z.lxor_assoc.
Qed.

Lemma In_range_256 x : 0 <= x < 256 -> In x (map Z.of_nat (seq 0 256)).
Proof.
  intros H. apply in_map_iff. exists (Z.to_nat x). split; [lia|].
  apply in_seq. lia.
Qed.

Lemma format_02X_byte x : 0 <= x < 256 -> format_02X x = spec_hex_pair x.
Proof.
  intros H.
  assert (A : forallb (fun x => String.eqb (format_02X x) (spec_hex_pair x))
                (map Z.of_nat (seq 0 256)) = true) by (vm_compute; reflexivity).
  rewrite forallb_forall in A.
  apply String.eqb_eq, A, In_range_256, H.
Qed.

Lemma encode_ascii_ok s : all_ascii s = true -> encode_ascii s = Ok (list_byte_of_string s).
Proof. unfold encode_ascii, all_ascii. now intros ->. Qed.

Lemma all_ascii_app s t : all_ascii (s ++ t) = all_ascii s && all_ascii t.
Proof.
  induction s as [|c s IH]; [reflexivity|].
  cbn [append]. rewrite !all_ascii_cons, IH. now rewrite andb_assoc.
Qed.

Lemma spec_hex_pair_ascii x : 0 <= x < 256 -> all_ascii (spec_hex_pair x) = true.
Proof.
  intros H.
  assert (A : forallb (fun x => all_ascii (spec_hex_pair x))
                (map Z.of_nat (seq 0 256)) = true) by (vm_compute; reflexivity).
  rewrite forallb_forall in A. apply A, In_range_256, H.
Qed.

Lemma vn_checksum_ok payload :
  all_ascii payload = true ->
  vn_checksum payload = Ok (spec_hex_pair (spec_checksum payload)).
Proof.
  intros H. unfold vn_checksum. rewrite (encode_ascii_ok _ H). cbn [obind].
  rewrite xor_loop_spec, Z.lxor_0_l.
  rewrite format_02X_byte; [reflexivity|].
  pose proof (spec_checksum_range _ H). lia.
Qed.

Lemma spec_frame_ascii payload :
  all_ascii payload = true -> all_ascii (spec_frame payload) = true.
Proof.
  intros H. unfold spec_frame.
  rewrite !all_ascii_app, H, spec_hex_pair_ascii; [reflexivity|].
  pose proof (spec_checksum_range _ H). lia.
Qed.

Lemma write_full_vn_message_ok payload :
  all_ascii payload = true ->
  write_full_vn_message payload = Ok (list_byte_of_string (spec_frame payload)).
Proof.
  intros H. unfold write_full_vn_message. rewrite (vn_checksum_ok _ H). cbn [obind].
  apply encode_ascii_ok. exact (spec_frame_ascii _ H).
Qed.

(** C7.  On an ASCII payload the checksum is the XOR of the payload's
    byte values written as two uppercase hexadecimal digits, and the frame
    is ['$'], the payload, ['*'], those two digits, CR, LF; the checksums
    of "A" and "AB" are 41 and 03 and the frame of "AB" is [$AB*03\r\n]. *)
Theorem vn_frame_is_xor_checksummed :
  (forall payload, all_ascii payload = true ->
     vn_checksum payload = Ok (spec_hex_pair (spec_checksum payload)) /\
     write_full_vn_message payload = Ok (list_byte_of_string (spec_frame payload)))
  /\ spec_checksum "A" = 65 /\ vn_checksum "A" = Ok "41"
  /\ spec_checksum "AB" = 3 /\ vn_checksum "AB" = Ok "03"
  /\ write_full_vn_message "AB"
     = Ok (list_byte_of_string ("$AB*03" ++ CRLF)).
Proof.
  split.
  - intros payload H. split.
    + exact (vn_checksum_ok payload H).
    + exact (write_full_vn_message_ok payload H).
  - repeat split; reflexivity.
Qed.

Lemma vn_frame_is_xor_checksummed_witness :
  all_ascii "VNRRG,47" = true /\
  vn_checksum "VNRRG,47" = Ok (spec_hex_pair (spec_checksum "VNRRG,47")) /\
  write_full_vn_message "VNRRG,47"
  = Ok (list_byte_of_string (spec_frame "VNRRG,47")).
Proof.
  split; [reflexivity|].
  apply (proj1 vn_frame_is_xor_checksummed "VNRRG,47"). reflexivity.
Defined.

(** *** Decoding an encoded frame *)

Lemma decode_ascii_ignore_ascii s :
  all_ascii s = true -> decode_ascii_ignore (list_byte_of_string s) = s.
Proof.
  intros H. unfold decode_ascii_ignore.
  replace (filter _ (list_byte_of_string s)) with (list_byte_of_string s).
  - apply string_of_list_byte_of_string.
  - induction s as [|c s IH]; [reflexivity|].
    rewrite all_ascii_cons in H. apply andb_true_iff in H as [Hc Hs].
    change (list_byte_of_string (String c s))
      with (byte_of_ascii c :: list_byte_of_string s).
    cbn [filter]. rewrite byte_code_of_ascii.
    unfold is_ascii in Hc. rewrite Hc. f_equal. auto.
Qed.

Lemma append_assoc (a b c : string) : (a ++ b) ++ c = a ++ b ++ c.
Proof. induction a as [|x a IH]; cbn; [reflexivity | now rewrite IH]. Qed.

Lemma rstrip_keep p s c :
  p c = false -> rstrip p (s ++ String c "") = s ++ String c "".
Proof.
  intros Hc. induction s as [|x s IH]; cbn.
  - now rewrite Hc.
  - rewrite IH. destruct s; reflexivity.
Qed.

Lemma rstrip_drop p s t :
  forallb p (list_ascii_of_string t) = true -> rstrip p (s ++ t) = rstrip p s.
Proof.
  intros Ht.
  assert (E : rstrip p t = "").
  { induction t as [|x t IH]; [reflexivity|].
    cbn in Ht. apply andb_true_iff in Ht as [Hx Ht].
    cbn. rewrite (IH Ht), Hx. reflexivity. }
  induction s as [|x s IH]; cbn; [exact E | now rewrite IH].
Qed.

Lemma split_head_no_sep sep a b :
  contains sep a = false ->
  str_split sep (a ++ String sep b) = a :: str_split sep b.
Proof.
  induction a as [|x a IH]; intros H; cbn.
  - now rewrite Ascii.eqb_refl.
  - cbn in H. apply orb_false_iff in H as [Hx Ha].
    rewrite Ascii.eqb_sym, Hx, (IH Ha). reflexivity.
Qed.

Lemma str_split_nonempty sep s : exists f fs, str_split sep s = f :: fs.
Proof.
  induction s as [|c s [f [fs E]]]; cbn.
  - eauto.
  - destruct (Ascii.eqb c sep); [eauto|]. rewrite E. eauto.
Qed.

Lemma str_split_cons_other sep c s :
  Ascii.eqb c sep = false ->
  str_split sep (String c s)
  = String c (hd "" (str_split sep s)) :: tl (str_split sep s).
Proof.
  intros H. cbn. rewrite H.
  destruct (str_split_nonempty sep s) as [f [fs ->]]. reflexivity.
Qed.

Lemma strip_by_skip p c s : p c = true -> strip_by p (String c s) = strip_by p s.
Proof. intros H. unfold strip_by. cbn. now rewrite H. Qed.

Lemma frame_fields_of_frame payload :
  all_ascii payload = true ->
  contains "*" payload = false ->
  obind (write_full_vn_message payload) frame_fields
  = Ok (Some (str_strip_chars "$" (hd "" (str_split "," payload))
              :: tl (str_split "," payload))).
Proof.
  intros Ha Hs.
  rewrite (write_full_vn_message_ok _ Ha). cbn [obind].
  unfold frame_fields, decode.
  rewrite (decode_ascii_ignore_ascii _ (spec_frame_ascii _ Ha)).
  set (x := spec_checksum payload).
  assert (Hx : 0 <= x < 256) by (pose proof (spec_checksum_range _ Ha); unfold x; lia).
  assert (Hmsg : str_strip (spec_frame payload)
                 = "$" ++ payload ++ "*" ++ spec_hex_pair x).
  { unfold spec_frame, str_strip, strip_by. fold x.
    change (lstrip py_isspace ("$" ++ payload ++ "*" ++ spec_hex_pair x ++ CRLF))
      with ("$" ++ payload ++ "*" ++ spec_hex_pair x ++ CRLF).
    replace ("$" ++ payload ++ "*" ++ spec_hex_pair x ++ CRLF)
      with (("$" ++ payload ++ "*" ++ spec_hex_pair x) ++ CRLF)
      by (now rewrite !append_assoc).
    rewrite rstrip_drop by reflexivity.
    unfold spec_hex_pair.
    replace ("$" ++ payload ++ "*" ++ String (spec_hex_digit (x / 16)) (String (spec_hex_digit (x mod 16)) ""))
      with (("$" ++ payload ++ "*" ++ String (spec_hex_digit (x / 16)) "") ++ String (spec_hex_digit (x mod 16)) "")
      by (rewrite !append_assoc; reflexivity).
    apply rstrip_keep.
    assert (A : forallb (fun x => negb (py_isspace (spec_hex_digit (x mod 16))))
                  (map Z.of_nat (seq 0 256)) = true) by (vm_compute; reflexivity).
    rewrite forallb_forall in A. apply negb_true_iff, A, In_range_256, Hx. }
  rewrite Hmsg. cbn [append String.eqb]. 
  change (String "$" (payload ++ String "*" (spec_hex_pair x)))
    with (String "$" payload ++ String "*" (spec_hex_pair x)).
  rewrite split_head_no_sep
    by (unfold contains in Hs |- *; cbn [list_ascii_of_string existsb];
        rewrite Hs; reflexivity).
  cbn [getitem nth_error obind].
  rewrite str_split_cons_other by reflexivity.
  cbn [getitem nth_error obind tl].
  unfold str_strip_chars. rewrite strip_by_skip by reflexivity.
  reflexivity.
Qed.

Lemma lstrip_id p s :
  (forall c, starts_with c s = true -> p c = false) -> lstrip p s = s.
Proof.
  destruct s as [|x s]; [reflexivity|]. intros H. cbn.
  rewrite (H x); [reflexivity | apply Ascii.eqb_refl].
Qed.

Lemma rstrip_id p s :
  (forall c, ends_with c s = true -> p c = false) -> rstrip p s = s.
Proof.
  induction s as [|x s IH]; [reflexivity|]. intros H.
  destruct s as [|y s].
  - cbn. rewrite (H x); [reflexivity | apply Ascii.eqb_refl].
  - assert (E : rstrip p (String y s) = String y s)
      by (apply IH; intros c Hc; apply H; exact Hc).
    change (rstrip p (String x (String y s)))
      with (match rstrip p (String y s) with
            | EmptyString => if p x then EmptyString else String x EmptyString
            | String a b => String x (String a b)
            end).
    rewrite E. reflexivity.
Qed.

Lemma strip_dollar_id f :
  starts_with "$" f = false -> ends_with "$" f = false ->
  str_strip_chars "$" f = f.
Proof.
  intros Hs He. unfold str_strip_chars, strip_by.
  assert (Q : forall s c, (starts_with c s = true \/ ends_with c s = true) ->
              (starts_with "$" s = false /\ ends_with "$" s = false) ->
              existsb (Ascii.eqb c) (list_ascii_of_string "$") = false).
  { intros s c H [H1 H2]. cbn. rewrite orb_false_r.
    destruct (Ascii.eqb_spec c "$") as [->|]; [|reflexivity].
    destruct H; congruence. }
  rewrite lstrip_id by (intros c Hc; apply (Q f c); auto).
  apply rstrip_id. intros c Hc. apply (Q f c); auto.
Qed.

(** C2, as amended.  For an ASCII payload that holds no ['*'] and whose
    first comma-separated field neither starts nor ends with ['$'],
    decoding the encoded frame gives back the payload's fields. *)
Theorem frame_roundtrip payload :
  all_ascii payload = true ->
  contains "*" payload = false ->
  starts_with "$" (hd "" (str_split "," payload)) = false ->
  ends_with "$" (hd "" (str_split "," payload)) = false ->
  obind (write_full_vn_message payload) frame_fields
  = Ok (Some (str_split "," payload)).
Proof.
  intros Ha Hstar Hs He.
  rewrite (frame_fields_of_frame _ Ha Hstar), (strip_dollar_id _ Hs He).
  destruct (str_split_nonempty "," payload) as [f [fs ->]]. reflexivity.
Qed.

Lemma frame_roundtrip_witness :
  obind (write_full_vn_message "VNWRG,44,1,1,3.5") frame_fields
  = Ok (Some ["VNWRG"; "44"; "1"; "1"; "3.5"]).
Proof.
  apply (frame_roundtrip "VNWRG,44,1,1,3.5"); reflexivity.
Defined.

(** C2, as stated, fails: a ['*'] inside the payload ends the decoded
    text early, and the ['$'] signs around the first field are all
    stripped. *)
Lemma frame_roundtrip_counterexample :
  (all_ascii "A*B" = true /\
   obind (write_full_vn_message "A*B") frame_fields
   <> Ok (Some (str_split "," "A*B"))) /\
  (all_ascii "$A$,B" = true /\
   obind (write_full_vn_message "$A$,B") frame_fields
   <> Ok (Some (str_split "," "$A$,B"))).
Proof. repeat split; try reflexivity; vm_compute; discriminate. Qed.

(** ** Running the monad *)

Lemma bind_lift_ok {St A B} (r : outcome A) (a : A) (k : A -> M St B) s :
  r = Ok a -> bind (lift r) k s = k a s.
Proof.
  intros ->. unfold bind, lift. destruct (k a s) as [[r s'] ev]. reflexivity.
Qed.

Lemma bind_lift_raise {St A B} (r : outcome A) e (k : A -> M St B) s :
  r = Raise e -> bind (lift r) k s = (Raise e, s, []).
Proof. intros ->. reflexivity. Qed.

Lemma try_except_ok {St A} (c : M St A) catches h s a :
  result_of (c s) = Ok a -> try_except c catches h s = c s.
Proof.
  unfold try_except, result_of. destruct (c s) as [[[] s'] ev]; cbn; congruence.
Qed.

Lemma bind_result_ok {St A B} (c : M St A) (k : A -> M St B) s a :
  result_of (c s) = Ok a ->
  bind c k s
  = (result_of (k a (state_of (c s))), state_of (k a (state_of (c s))),
     (events_of (c s) ++ events_of (k a (state_of (c s))))%list).
Proof.
  unfold bind, result_of, state_of, events_of.
  destruct (c s) as [[[] s'] ev]; cbn; try congruence.
  intros [= ->]. destruct (k a s') as [[r s2] ev2]. reflexivity.
Qed.

(** ** Reader task *)

Lemma getitem_cases {A} (l : list A) i :
  (exists x, getitem l i = Ok x) \/ getitem l i = Raise IndexError.
Proof. unfold getitem. destruct (nth_error l i); eauto. Qed.

Lemma py_int_cases s :
  (exists n, py_int s = Ok n) \/ py_int s = Raise (ValueError s).
Proof.
  unfold py_int. destruct (take_sign (strip_by c_isspace s)) as [neg body].
  destruct (int_digits body 0 false); eauto.
Qed.

Lemma decode_total raw : exists d, decode raw = Ok d.
Proof.
  unfold decode. destruct (String.eqb _ ""); [eauto|].
  destruct (str_split_nonempty "*" (str_strip (decode_ascii_ignore raw)))
    as [f [fs ->]].
  cbn. destruct (str_split_nonempty "," f) as [g [gs ->]]. cbn. eauto.
Qed.

Lemma is_hsi_reply_tame msg_type parsed_msg :
  tame (is_hsi_reply msg_type parsed_msg).
Proof.
  unfold is_hsi_reply. destruct (String.eqb msg_type "VNRRG"); [|exact I].
  destruct (getitem_cases parsed_msg 1) as [[reg ->] | ->]; [|reflexivity].
  cbn. destruct (py_int_cases reg) as [[n ->] | ->]; [exact I | reflexivity].
Qed.

Lemma capture_result parsed_msg st : result_of (capture parsed_msg st) = Ok tt.
Proof.
  unfold capture, bind, get, modify, emit.
  destruct (truthy (hsi_C (hsi_before st))), (truthy (hsi_C (hsi_after st)));
    reflexivity.
Qed.

(** What one iteration does, by the kind of line read. *)
Lemma reader_iter_blank raw st :
  decode raw = Ok None -> reader_iter (Ok raw) st = (Ok tt, st, []).
Proof.
  intros E. unfold reader_iter, try_except, reader_body.
  rewrite (bind_lift_ok _ raw) by reflexivity.
  rewrite (bind_lift_ok _ _ _ _ E). reflexivity.
Qed.

Lemma reader_iter_hsi_reply raw parsed_msg st :
  hsi_reply_fields raw = Some parsed_msg ->
  reader_iter (Ok raw) st = capture parsed_msg st.
Proof.
  unfold hsi_reply_fields. intros H.
  destruct (decode raw) as [[[[msg fields] tag]|]| |] eqn:E; try discriminate.
  destruct (is_hsi_reply tag fields) as [[]| |] eqn:E2; try discriminate.
  injection H as <-.
  unfold reader_iter. rewrite (try_except_ok _ _ _ _ tt).
  - unfold reader_body.
    rewrite (bind_lift_ok _ raw) by reflexivity.
    rewrite (bind_lift_ok _ _ _ _ E). cbv beta iota.
    rewrite (bind_lift_ok _ _ _ _ E2). reflexivity.
  - unfold reader_body.
    rewrite (bind_lift_ok _ raw) by reflexivity.
    rewrite (bind_lift_ok _ _ _ _ E). cbv beta iota.
    rewrite (bind_lift_ok _ _ _ _ E2). apply capture_result.
Qed.

Lemma reader_iter_other raw st :
  hsi_reply_fields raw = None ->
  exists evs, reader_iter (Ok raw) st = (Ok tt, st, evs).
Proof.
  unfold hsi_reply_fields. intros H.
  destruct (decode_total raw) as [d E]. rewrite E in H.
  destruct d as [[[msg fields] tag]|]; [|rewrite (reader_iter_blank _ _ E); eauto].
  unfold reader_iter, try_except, reader_body.
  rewrite (bind_lift_ok _ raw) by reflexivity.
  rewrite (bind_lift_ok _ _ _ _ E). cbv beta iota.
  pose proof (is_hsi_reply_tame tag fields) as T.
  destruct (is_hsi_reply tag fields) as [[]|e|] eqn:E2; try discriminate.
  - rewrite (bind_lift_ok _ _ _ _ eq_refl). cbv beta iota.
    destruct (String.eqb tag "VNERR"); [|cbn; eauto].
    destruct (getitem_cases fields 1) as [[code Ec] | Ec].
    + rewrite (bind_lift_ok _ _ _ _ Ec). cbn. eauto.
    + rewrite (bind_lift_raise _ _ _ _ Ec). cbn. eauto.
  - rewrite (bind_lift_raise _ _ _ _ eq_refl). cbn in T. rewrite T. cbn. eauto.
  - contradiction.
Qed.

Lemma reader_iter_fault e st :
  is_Exception e = true ->
  reader_iter (Raise e) st = (Ok tt, st, [PrintError "Error in Port 1: " e]).
Proof.
  intros H. unfold reader_iter, try_except, reader_body.
  rewrite (bind_lift_raise _ _ _ _ eq_refl). rewrite H. reflexivity.
Qed.

Lemma result_of_bind {St A B} (c : M St A) (k : A -> M St B) s :
  result_of (bind c k s)
  = match result_of (c s) with
    | Ok a => result_of (k a (state_of (c s)))
    | Raise e => Raise e
    | Blocked => Blocked
    end.
Proof.
  unfold bind, result_of, state_of. destruct (c s) as [[[a|e|] s1] ev1]; cbn;
    [destruct (k a s1) as [[r s2] ev2]|..]; reflexivity.
Qed.

Lemma state_of_bind {St A B} (c : M St A) (k : A -> M St B) s :
  state_of (bind c k s)
  = match result_of (c s) with
    | Ok a => state_of (k a (state_of (c s)))
    | _ => state_of (c s)
    end.
Proof.
  unfold bind, result_of, state_of. destruct (c s) as [[[a|e|] s1] ev1]; cbn;
    [destruct (k a s1) as [[r s2] ev2]|..]; reflexivity.
Qed.

(** *** Blank lines *)

Lemma lstrip_all p s :
  forallb p (list_ascii_of_string s) = true -> lstrip p s = "".
Proof.
  induction s as [|c s IH]; [reflexivity|]. cbn. intros H.
  apply andb_true_iff in H as [-> H]. auto.
Qed.

Lemma decode_ascii_ignore_forall (p : ascii -> bool) raw :
  forallb (fun b => p (ascii_of_byte b)) raw = true ->
  forallb p (list_ascii_of_string (decode_ascii_ignore raw)) = true.
Proof.
  unfold decode_ascii_ignore, string_of_list_byte.
  rewrite list_ascii_of_string_of_list_ascii.
  induction raw as [|b raw IH]; [reflexivity|]. cbn. intros H.
  apply andb_true_iff in H as [Hb H].
  destruct (byte_code b <? 128); cbn; [rewrite Hb|]; auto.
Qed.

Lemma decode_blank raw : blank raw = true -> decode raw = Ok None.
Proof.
  intros H. unfold decode, str_strip, strip_by.
  rewrite lstrip_all by (apply decode_ascii_ignore_forall; exact H).
  reflexivity.
Qed.

(** C8.  A line that is empty or made of whitespace only is skipped: the
    iteration ends normally, both snapshots are as they were and nothing
    is printed or warned. *)
Theorem blank_line_is_skipped raw st :
  blank raw = true -> reader_iter (Ok raw) st = (Ok tt, st, []).
Proof. intros H. apply reader_iter_blank, decode_blank, H. Qed.

Lemma blank_line_is_skipped_witness :
  reader_iter (Ok (list_byte_of_string (" " ++ CRLF))) init = (Ok tt, init, []) /\
  reader_iter (Ok []) init = (Ok tt, init, []).
Proof.
  split; apply blank_line_is_skipped; reflexivity.
Defined.

(** *** No line ends the task *)

Lemma reader_body_tame raw st : tame (result_of (reader_body (Ok raw) st)).
Proof.
  unfold reader_body. rewrite (bind_lift_ok _ raw) by reflexivity.
  destruct (decode_total raw) as [d E]. rewrite (bind_lift_ok _ _ _ _ E).
  destruct d as [[[msg fields] tag]|]; [|exact I]. cbv beta iota.
  pose proof (is_hsi_reply_tame tag fields) as T.
  destruct (is_hsi_reply tag fields) as [[]|e|] eqn:E2.
  - rewrite (bind_lift_ok _ _ _ _ eq_refl). rewrite capture_result. exact I.
  - rewrite (bind_lift_ok _ _ _ _ eq_refl). cbv beta iota.
    destruct (String.eqb tag "VNERR"); [|exact I].
    destruct (getitem_cases fields 1) as [[code Ec] | Ec].
    + rewrite (bind_lift_ok _ _ _ _ Ec). exact I.
    + rewrite (bind_lift_raise _ _ _ _ Ec). reflexivity.
  - rewrite (bind_lift_raise _ _ _ _ eq_refl). exact T.
  - contradiction.
Qed.

Lemma reader_iter_Ok_result raw st : result_of (reader_iter (Ok raw) st) = Ok tt.
Proof.
  destruct (hsi_reply_fields raw) as [fields|] eqn:E.
  - rewrite (reader_iter_hsi_reply _ _ _ E). apply capture_result.
  - destruct (reader_iter_other raw st E) as [evs ->]. reflexivity.
Qed.

Lemma reader_body_raise raw st e :
  result_of (reader_body (Ok raw) st) = Raise e ->
  reader_body (Ok raw) st = (Raise e, st, []).
Proof.
  unfold reader_body. rewrite (bind_lift_ok _ raw) by reflexivity.
  destruct (decode_total raw) as [d E]. rewrite (bind_lift_ok _ _ _ _ E).
  destruct d as [[[msg fields] tag]|]; [|discriminate]. cbv beta iota.
  pose proof (is_hsi_reply_tame tag fields) as T.
  destruct (is_hsi_reply tag fields) as [[]|e'|] eqn:E2.
  - rewrite (bind_lift_ok _ _ _ _ eq_refl). rewrite capture_result. discriminate.
  - rewrite (bind_lift_ok _ _ _ _ eq_refl). cbv beta iota.
    destruct (String.eqb tag "VNERR"); [|discriminate].
    destruct (getitem_cases fields 1) as [[code Ec] | Ec].
    + rewrite (bind_lift_ok _ _ _ _ Ec). discriminate.
    + rewrite (bind_lift_raise _ _ _ _ Ec). cbn. now intros [= <-].
  - rewrite (bind_lift_raise _ _ _ _ eq_refl). cbn. now intros [= <-].
  - contradiction.
Qed.

Lemma reader_cons line rest st :
  result_of (reader_iter line st) = Ok tt ->
  reader (line :: rest) st
  = (result_of (reader rest (state_of (reader_iter line st))),
     state_of (reader rest (state_of (reader_iter line st))),
     (events_of (reader_iter line st)
      ++ events_of (reader rest (state_of (reader_iter line st))))%list).
Proof.
  intros H. cbn [reader].
  exact (bind_result_ok (reader_iter line) (fun _ => reader rest) st tt H).
Qed.

(** C6.  Whatever line is read, the iteration ends normally; when the
    body raises (a register field that is missing or not a number, for
    one), the exception is printed, the state is left as it was, and the
    loop goes on with the next line. *)
Theorem reader_survives_every_line raw st :
  result_of (reader_iter (Ok raw) st) = Ok tt /\
  (forall e, result_of (reader_body (Ok raw) st) = Raise e ->
     reader_iter (Ok raw) st = (Ok tt, st, [PrintError "Error in Port 1: " e])) /\
  (forall rest,
     reader (Ok raw :: rest) st
     = (result_of (reader rest (state_of (reader_iter (Ok raw) st))),
        state_of (reader rest (state_of (reader_iter (Ok raw) st))),
        (events_of (reader_iter (Ok raw) st)
         ++ events_of (reader rest (state_of (reader_iter (Ok raw) st))))%list)).
Proof.
  split; [apply reader_iter_Ok_result|]. split.
  - intros e H. pose proof (reader_body_tame raw st) as T. rewrite H in T.
    unfold reader_iter, try_except. rewrite (reader_body_raise _ _ _ H).
    cbn in T. rewrite T. reflexivity.
  - intros rest. apply reader_cons, reader_iter_Ok_result.
Qed.

Lemma reader_survives_every_line_witness :
  reader_iter (Ok (list_byte_of_string "$VNRRG")) init
  = (Ok tt, init, [PrintError "Error in Port 1: " IndexError]) /\
  reader_iter (Ok (list_byte_of_string "$VNRRG,4x7,1,2")) init
  = (Ok tt, init, [PrintError "Error in Port 1: " (ValueError "4x7")]).
Proof.
  split.
  - apply (proj1 (proj2 (reader_survives_every_line
                           (list_byte_of_string "$VNRRG") init))).
    reflexivity.
  - apply (proj1 (proj2 (reader_survives_every_line
                           (list_byte_of_string "$VNRRG,4x7,1,2") init))).
    reflexivity.
Defined.

(** The task as a whole: whatever it reads, short of an interrupt, it
    runs to its normal end. *)
Lemma reader_runs_to_its_end reads st :
  Forall tame reads -> result_of (reader reads st) = Ok tt.
Proof.
  intros H. revert st. induction H as [|line rest Hl _ IH]; intros st.
  - reflexivity.
  - assert (R : result_of (reader_iter line st) = Ok tt).
    { destruct line as [raw|e|]; cbn in Hl.
      - apply reader_iter_Ok_result.
      - now rewrite (reader_iter_fault _ _ Hl).
      - contradiction. }
    rewrite (reader_cons _ _ _ R). apply IH.
Qed.

(** *** The snapshot store *)

Lemma populated_iff s : populated s = true <-> hsi_C s <> [].
Proof.
  unfold populated, truthy. destruct (hsi_C s); split; congruence.
Qed.

(** What [capture] does, by the state of the two slots. *)
Lemma capture_before parsed_msg st :
  populated (hsi_before st) = false ->
  capture parsed_msg st
  = (Ok tt, {| hsi_before := snapshot_of parsed_msg;
               hsi_after := hsi_after st |}, []).
Proof.
  unfold populated, capture. intros H.
  unfold bind, get, modify. cbn. rewrite H. reflexivity.
Qed.

Lemma capture_after parsed_msg st :
  populated (hsi_before st) = true ->
  populated (hsi_after st) = false ->
  capture parsed_msg st
  = (Ok tt, {| hsi_before := hsi_before st;
               hsi_after := snapshot_of parsed_msg |}, []).
Proof.
  unfold populated, capture. intros H1 H2.
  unfold bind, get, modify. cbn. rewrite H1, H2. reflexivity.
Qed.

Lemma capture_full parsed_msg st :
  populated (hsi_before st) = true ->
  populated (hsi_after st) = true ->
  capture parsed_msg st = (Ok tt, st, [Warn overflow_warning]).
Proof.
  unfold populated, capture. intros H1 H2.
  unfold bind, get, emit. cbn. rewrite H1, H2. reflexivity.
Qed.

Lemma capture_keeps parsed_msg st :
  (populated (hsi_before st) = true ->
   hsi_before (state_of (capture parsed_msg st)) = hsi_before st) /\
  (populated (hsi_after st) = true ->
   hsi_after (state_of (capture parsed_msg st)) = hsi_after st).
Proof.
  destruct (populated (hsi_before st)) eqn:Hb.
  - destruct (populated (hsi_after st)) eqn:Ha.
    + rewrite (capture_full _ _ Hb Ha). auto.
    + rewrite (capture_after _ _ Hb Ha). split; [reflexivity | discriminate].
  - rewrite (capture_before _ _ Hb). split; [discriminate | reflexivity].
Qed.

Lemma reader_iter_keeps line st :
  (populated (hsi_before st) = true ->
   hsi_before (state_of (reader_iter line st)) = hsi_before st) /\
  (populated (hsi_after st) = true ->
   hsi_after (state_of (reader_iter line st)) = hsi_after st).
Proof.
  destruct line as [raw|e|].
  - destruct (hsi_reply_fields raw) as [fields|] eqn:E.
    + rewrite (reader_iter_hsi_reply _ _ _ E). apply capture_keeps.
    + destruct (reader_iter_other raw st E) as [evs ->]. auto.
  - unfold reader_iter, try_except, reader_body.
    rewrite (bind_lift_raise _ _ _ _ eq_refl).
    destruct (is_Exception e); auto.
  - auto.
Qed.

(** C5.  A snapshot is populated exactly when its matrix is not empty,
    and whatever the reader goes on to read (lines of any kind, transport
    faults, an interrupt), a populated snapshot keeps its contents. *)
Theorem snapshot_population_is_monotonic reads st :
  (forall s, populated s = true <-> hsi_C s <> []) /\
  (populated (hsi_before st) = true ->
   hsi_before (state_of (reader reads st)) = hsi_before st) /\
  (populated (hsi_after st) = true ->
   hsi_after (state_of (reader reads st)) = hsi_after st).
Proof.
  split; [exact populated_iff|].
  revert st. induction reads as [|line rest IH]; intros st.
  - split; reflexivity.
  - cbn [reader]. rewrite state_of_bind.
    destruct (reader_iter_keeps line st) as [Kb Ka].
    destruct (result_of (reader_iter line st)); [|auto..].
    destruct (IH (state_of (reader_iter line st))) as [Ib Ia].
    split; intros H.
    + rewrite Ib; rewrite (Kb H); auto.
    + rewrite Ia; rewrite (Ka H); auto.
Qed.

Lemma snapshot_population_is_monotonic_witness :
  let st := {| hsi_before := sample_hsi_1; hsi_after := mk_hsi [] [] |} in
  hsi_before
    (state_of (reader [Ok sample_reply_2; Ok sample_error; Ok sample_reply_1;
                       Raise KeyboardInterrupt; Ok sample_reply_2] st))
  = sample_hsi_1.
Proof.
  intros st.
  apply (proj1 (proj2 (snapshot_population_is_monotonic _ st))).
  reflexivity.
Defined.

Lemma snapshot_of_populated parsed_msg :
  (2 < List.length parsed_msg)%nat -> populated (snapshot_of parsed_msg) = true.
Proof.
  intros H. destruct parsed_msg as [|a [|b [|c l]]]; cbn in H; try lia.
  reflexivity.
Qed.

Lemma reader_nil st : reader [] st = (Ok tt, st, [Print "Serial Port 1 Closing"]).
Proof. reflexivity. Qed.

Lemma reader_step line rest st st' evs :
  reader_iter line st = (Ok tt, st', evs) ->
  reader (line :: rest) st
  = (result_of (reader rest st'), state_of (reader rest st'),
     (evs ++ events_of (reader rest st'))%list).
Proof.
  intros H. cbn [reader]. unfold bind. rewrite H.
  destruct (reader rest st') as [[r s] ev]. reflexivity.
Qed.

Lemma reader_step_silent line rest st st' :
  reader_iter line st = (Ok tt, st', []) ->
  reader (line :: rest) st = reader rest st'.
Proof.
  intros H. rewrite (reader_step _ _ _ _ _ H).
  destruct (reader rest st') as [[r s] ev]. reflexivity.
Qed.

(** Once both slots are full, valid acknowledgments only add warnings. *)
Lemma reader_full more st :
  populated (hsi_before st) = true ->
  populated (hsi_after st) = true ->
  Forall valid_hsi_reply more ->
  reader (map Ok more) st
  = (Ok tt, st,
     (repeat (Warn overflow_warning) (List.length more)
      ++ [Print "Serial Port 1 Closing"])%list).
Proof.
  intros Hb Ha H. induction H as [|raw more [fields [E _]] _ IH].
  - reflexivity.
  - assert (R : reader_iter (Ok raw) st = (Ok tt, st, [Warn overflow_warning]))
      by (rewrite (reader_iter_hsi_reply _ _ _ E); now apply capture_full).
    cbn [map]. rewrite (reader_step _ _ _ _ _ R), IH. reflexivity.
Qed.

(** C3.  With both slots populated, a further acknowledgment of register
    47 is answered by the overflow warning and changes nothing; hence of
    any run of valid acknowledgments from the initial state only the first
    two are stored, and each later one is warned about. *)
Theorem full_store_ignores_further_replies :
  (forall raw parsed_msg st,
     hsi_reply_fields raw = Some parsed_msg ->
     populated (hsi_before st) = true ->
     populated (hsi_after st) = true ->
     reader_iter (Ok raw) st = (Ok tt, st, [Warn overflow_warning])) /\
  (forall a b more,
     valid_hsi_reply a -> valid_hsi_reply b -> Forall valid_hsi_reply more ->
     state_of (reader (map Ok (a :: b :: more)) init)
     = state_of (reader (map Ok [a; b]) init) /\
     events_of (reader (map Ok (a :: b :: more)) init)
     = (repeat (Warn overflow_warning) (List.length more)
        ++ [Print "Serial Port 1 Closing"])%list).
Proof.
  split.
  - intros raw parsed_msg st E Hb Ha.
    rewrite (reader_iter_hsi_reply _ _ _ E). now apply capture_full.
  - intros a b more [fa [Ea La]] [fb [Eb Lb]] Hmore.
    assert (Ra : reader_iter (Ok a) init
                 = (Ok tt, {| hsi_before := snapshot_of fa;
                              hsi_after := hsi_after init |}, []))
      by (rewrite (reader_iter_hsi_reply _ _ _ Ea); now apply capture_before).
    set (st1 := {| hsi_before := snapshot_of fa; hsi_after := hsi_after init |}) in *.
    assert (Rb : reader_iter (Ok b) st1
                 = (Ok tt, {| hsi_before := snapshot_of fa;
                              hsi_after := snapshot_of fb |}, [])).
    { rewrite (reader_iter_hsi_reply _ _ _ Eb).
      apply capture_after; [apply snapshot_of_populated, La | reflexivity]. }
    set (st2 := {| hsi_before := snapshot_of fa; hsi_after := snapshot_of fb |}) in *.
    assert (F : forall rest,
               reader (Ok a :: Ok b :: rest) init = reader rest st2).
    { intros rest.
      now rewrite (reader_step_silent _ _ _ _ Ra), (reader_step_silent _ _ _ _ Rb). }
    cbn [map]. rewrite (F (map Ok more)), (F []).
    rewrite (reader_full more st2); [split; reflexivity| | |exact Hmore].
    + apply snapshot_of_populated, La.
    + apply snapshot_of_populated, Lb.
Qed.

Lemma sample_replies_valid :
  valid_hsi_reply sample_reply_1 /\ valid_hsi_reply sample_reply_2.
Proof.
  split; eexists; (split; [vm_compute; reflexivity | cbn; lia]).
Qed.

Lemma full_store_ignores_further_replies_witness :
  reader_iter (Ok sample_reply_1)
    {| hsi_before := sample_hsi_1; hsi_after := sample_hsi_2 |}
  = (Ok tt, {| hsi_before := sample_hsi_1; hsi_after := sample_hsi_2 |},
     [Warn overflow_warning]) /\
  state_of (reader (map Ok [sample_reply_1; sample_reply_2;
                            sample_reply_2; sample_reply_1]) init)
  = state_of (reader (map Ok [sample_reply_1; sample_reply_2]) init).
Proof.
  split.
  - eapply (proj1 full_store_ignores_further_replies);
      [vm_compute; reflexivity | reflexivity | reflexivity].
  - apply (proj2 full_store_ignores_further_replies);
      [apply sample_replies_valid | apply sample_replies_valid |].
    repeat constructor; apply sample_replies_valid.
Defined.

(** Reads that are not acknowledgments of register 47 leave the store as
    it is. *)
Lemma reader_iter_other_read line st :
  other_read line -> exists evs, reader_iter line st = (Ok tt, st, evs).
Proof.
  destruct line as [raw|e|]; intros H; cbn [other_read] in H.
  - now apply reader_iter_other.
  - rewrite (reader_iter_fault _ _ H). eauto.
  - contradiction.
Qed.

Lemma reader_skips_others others rest st :
  Forall other_read others ->
  result_of (reader (others ++ rest) st) = result_of (reader rest st) /\
  state_of (reader (others ++ rest) st) = state_of (reader rest st).
Proof.
  intros H. induction H as [|line others Hl _ IH]; [auto|].
  destruct (reader_iter_other_read line st Hl) as [evs R].
  cbn [app]. rewrite (reader_step _ _ _ _ _ R). exact IH.
Qed.

(** C4.  From the initial state, the first valid acknowledgment of
    register 47 fills "before" and the second fills "after", whatever
    other reads (other messages, error notifications, blank or faulty
    lines, transport faults) come before, between and after them. *)
Theorem two_replies_fill_before_then_after pre mid post a b fa fb :
  Forall other_read pre -> Forall other_read mid -> Forall other_read post ->
  hsi_reply_fields a = Some fa -> (2 < List.length fa)%nat ->
  hsi_reply_fields b = Some fb -> (2 < List.length fb)%nat ->
  state_of (reader (pre ++ Ok a :: mid) init)
  = {| hsi_before := snapshot_of fa; hsi_after := hsi_after init |} /\
  state_of (reader (pre ++ Ok a :: mid ++ Ok b :: post) init)
  = {| hsi_before := snapshot_of fa; hsi_after := snapshot_of fb |} /\
  result_of (reader (pre ++ Ok a :: mid ++ Ok b :: post) init) = Ok tt.
Proof.
  intros Hpre Hmid Hpost Ea La Eb Lb.
  assert (Ra : reader_iter (Ok a) init
               = (Ok tt, {| hsi_before := snapshot_of fa;
                            hsi_after := hsi_after init |}, []))
    by (rewrite (reader_iter_hsi_reply _ _ _ Ea); now apply capture_before).
  set (st1 := {| hsi_before := snapshot_of fa; hsi_after := hsi_after init |}) in *.
  assert (Rb : reader_iter (Ok b) st1
               = (Ok tt, {| hsi_before := snapshot_of fa;
                            hsi_after := snapshot_of fb |}, [])).
  { rewrite (reader_iter_hsi_reply _ _ _ Eb).
    apply capture_after; [apply snapshot_of_populated, La | reflexivity]. }
  set (st2 := {| hsi_before := snapshot_of fa; hsi_after := snapshot_of fb |}) in *.
  split; [|split].
  - rewrite (proj2 (reader_skips_others pre _ init Hpre)).
    rewrite (reader_step_silent _ _ _ _ Ra).
    rewrite <- (app_nil_r mid).
    now rewrite (proj2 (reader_skips_others mid [] st1 Hmid)).
  - rewrite (proj2 (reader_skips_others pre _ init Hpre)).
    rewrite (reader_step_silent _ _ _ _ Ra).
    rewrite (proj2 (reader_skips_others mid _ st1 Hmid)).
    rewrite (reader_step_silent _ _ _ _ Rb).
    rewrite <- (app_nil_r post).
    now rewrite (proj2 (reader_skips_others post [] st2 Hpost)).
  - rewrite (proj1 (reader_skips_others pre _ init Hpre)).
    rewrite (reader_step_silent _ _ _ _ Ra).
    rewrite (proj1 (reader_skips_others mid _ st1 Hmid)).
    rewrite (reader_step_silent _ _ _ _ Rb).
    rewrite <- (app_nil_r post).
    now rewrite (proj1 (reader_skips_others post [] st2 Hpost)).
Qed.

Lemma two_replies_fill_before_then_after_witness :
  state_of (reader ([Ok (list_byte_of_string "$VNYMR,1,2,3*00"); Ok []]
                    ++ Ok sample_reply_1
                    :: [Ok sample_error; Raise (SerialException "timeout");
                        Ok (list_byte_of_string "$VNRRG,x")]
                    ++ Ok sample_reply_2
                    :: [Ok (list_byte_of_string "$VNRRG,07,40*5E")]) init)
  = {| hsi_before := sample_hsi_1; hsi_after := sample_hsi_2 |}.
Proof.
  refine (proj1 (proj2 (two_replies_fill_before_then_after
            [Ok (list_byte_of_string "$VNYMR,1,2,3*00"); Ok []]
            [Ok sample_error; Raise (SerialException "timeout");
             Ok (list_byte_of_string "$VNRRG,x")]
            [Ok (list_byte_of_string "$VNRRG,07,40*5E")]
            sample_reply_1 sample_reply_2 sample_fields_1 sample_fields_2
            _ _ _ _ _ _ _))).
  - repeat constructor.
  - repeat constructor.
  - repeat constructor.
  - reflexivity.
  - cbn; lia.
  - reflexivity.
  - cbn; lia.
Defined.

(** *** Short acknowledgments *)

Lemma hsi_reply_fields_length raw parsed_msg :
  hsi_reply_fields raw = Some parsed_msg -> (2 <= List.length parsed_msg)%nat.
Proof.
  unfold hsi_reply_fields.
  destruct (decode raw) as [[[[msg fields] tag]|]| |]; try discriminate.
  unfold is_hsi_reply. destruct (String.eqb tag "VNRRG"); [|discriminate].
  destruct fields as [|f0 [|f1 fields]]; cbn; try discriminate.
  destruct (py_int f1) as [n| |]; cbn; try discriminate.
  destruct (n =? 47); [|discriminate]. intros [= <-]. cbn. lia.
Qed.

Lemma snapshot_of_short parsed_msg :
  (List.length parsed_msg <= 10)%nat ->
  snapshot_of parsed_msg = {| hsi_C := skipn 2 parsed_msg; hsi_B := [] |}.
Proof.
  intros H. unfold snapshot_of, slice. f_equal.
  - apply firstn_all2. rewrite length_skipn. lia.
  - rewrite skipn_all2 by lia. reflexivity.
Qed.

Lemma show_hsi_short s keys :
  (0 < List.length (hsi_C s) < 9)%nat ->
  show_hsi s keys
  = (Raise IndexError, keys, [Print "HSI has been updated. Values are:"]).
Proof.
  destruct s as [C B]. cbn [hsi_C]. intros H.
  do 9 (destruct C as [|? C]; [cbn in H; try lia; reflexivity|]).
  cbn in H. lia.
Qed.

(** C10.  An acknowledgment of register 47 with nothing after the register
    number stores an empty matrix: the slot it was meant for stays
    unpopulated and nothing is warned.  One with one to eight data fields
    populates that slot with a matrix of fewer than nine entries and an
    empty bias, a snapshot that the sequencer cannot display. *)
Theorem short_reply_breaks_snapshot_shape raw parsed_msg st :
  hsi_reply_fields raw = Some parsed_msg ->
  (List.length parsed_msg = 2%nat ->
     (populated (hsi_before st) = false ->
        reader_iter (Ok raw) st
        = (Ok tt, {| hsi_before := mk_hsi [] [];
                     hsi_after := hsi_after st |}, [])) /\
     (populated (hsi_before st) = true -> populated (hsi_after st) = false ->
        reader_iter (Ok raw) st
        = (Ok tt, {| hsi_before := hsi_before st;
                     hsi_after := mk_hsi [] [] |}, [])) /\
     populated (mk_hsi [] []) = false) /\
  ((3 <= List.length parsed_msg <= 10)%nat ->
     let short := {| hsi_C := skipn 2 parsed_msg; hsi_B := [] |} in
     (populated (hsi_before st) = false ->
        reader_iter (Ok raw) st
        = (Ok tt, {| hsi_before := short; hsi_after := hsi_after st |}, [])) /\
     (populated (hsi_before st) = true -> populated (hsi_after st) = false ->
        reader_iter (Ok raw) st
        = (Ok tt, {| hsi_before := hsi_before st; hsi_after := short |}, [])) /\
     populated short = true /\
     (List.length (hsi_C short) = List.length parsed_msg - 2)%nat /\
     (List.length (hsi_C short) < 9)%nat /\
     (forall keys, result_of (show_hsi short keys) = Raise IndexError)).
Proof.
  intros E. rewrite (reader_iter_hsi_reply _ _ _ E). split.
  - intros L.
    assert (S0 : snapshot_of parsed_msg = mk_hsi [] []).
    { rewrite snapshot_of_short by lia.
      destruct parsed_msg as [|a [|b [|c l]]]; cbn in L; try lia. reflexivity. }
    split; [|split].
    + intros Hb. rewrite (capture_before _ _ Hb), S0. reflexivity.
    + intros Hb Ha. rewrite (capture_after _ _ Hb Ha), S0. reflexivity.
    + reflexivity.
  - intros L short.
    assert (S0 : snapshot_of parsed_msg = short)
      by (apply snapshot_of_short; lia).
    assert (Len : (List.length (hsi_C short) = List.length parsed_msg - 2)%nat)
      by (unfold short; cbn [hsi_C]; apply length_skipn).
    split; [|split; [|split; [|split; [|split]]]].
    + intros Hb. rewrite (capture_before _ _ Hb), S0. reflexivity.
    + intros Hb Ha. rewrite (capture_after _ _ Hb Ha), S0. reflexivity.
    + rewrite <- S0. apply snapshot_of_populated. lia.
    + exact Len.
    + lia.
    + intros keys. rewrite show_hsi_short by lia. reflexivity.
Qed.

Lemma short_reply_breaks_snapshot_shape_witness :
  reader_iter (Ok (list_byte_of_string "$VNRRG,47*70")) init = (Ok tt, init, []) /\
  reader_iter (Ok (list_byte_of_string "$VNRRG,47,1,2*70")) init
  = (Ok tt, {| hsi_before := {| hsi_C := ["1"; "2"]; hsi_B := [] |};
               hsi_after := hsi_after init |}, []).
Proof.
  split.
  - refine (proj1 (proj1 (short_reply_breaks_snapshot_shape
              (list_byte_of_string "$VNRRG,47*70") ["$VNRRG"; "47"] init _) _) _);
      reflexivity.
  - refine (proj1 (proj2 (short_reply_breaks_snapshot_shape
              (list_byte_of_string "$VNRRG,47,1,2*70")
              ["$VNRRG"; "47"; "1"; "2"] init _) _) _);
      [reflexivity | cbn; lia | reflexivity].
Defined.

(** ** Calibration sequencer *)

Lemma bind_eq {St A B} (c : M St A) (k : A -> M St B) s a s1 ev1 :
  c s = (Ok a, s1, ev1) ->
  bind c k s
  = (result_of (k a s1), state_of (k a s1), (ev1 ++ events_of (k a s1))%list).
Proof.
  intros H. unfold bind. rewrite H. destruct (k a s1) as [[r s2] ev2]. reflexivity.
Qed.

Lemma writes_app ev1 ev2 : writes (ev1 ++ ev2) = (writes ev1 ++ writes ev2)%list.
Proof.
  induction ev1 as [|e ev1 IH]; [reflexivity|].
  destruct e; cbn; rewrite IH; reflexivity.
Qed.

Lemma loop_stop {St A} n (body : M St (option A)) s a s1 ev1 :
  body s = (Ok (Some a), s1, ev1) -> loop (S n) body s = (Ok a, s1, ev1).
Proof.
  intros H. cbn [loop]. rewrite (bind_eq _ _ _ _ _ _ H). cbn.
  now rewrite app_nil_r.
Qed.

Lemma loop_again {St A} n (body : M St (option A)) s s1 ev1 :
  body s = (Ok None, s1, ev1) ->
  loop (S n) body s
  = (result_of (loop n body s1), state_of (loop n body s1),
     (ev1 ++ events_of (loop n body s1))%list).
Proof. intros H. cbn [loop]. now rewrite (bind_eq _ _ _ _ _ _ H). Qed.

Lemma loop_raise {St A} n (body : M St (option A)) s e s1 ev1 :
  body s = (Raise e, s1, ev1) -> loop (S n) body s = (Raise e, s1, ev1).
Proof. intros H. cbn [loop]. unfold bind. now rewrite H. Qed.

(** *** The continue gate *)

Lemma check_body_invalid k keys :
  invalid_reply k ->
  check_to_continue_body (k :: keys) = (Ok None, keys, continue_dialogue k).
Proof.
  destruct k as [s| |]; cbn [invalid_reply]; try contradiction.
  intros [Hy Hn]. apply String.eqb_neq in Hy, Hn.
  unfold check_to_continue_body, try_except, bind, input, continue_dialogue.
  rewrite Hy, Hn. reflexivity.
Qed.

Lemma check_body_declines k keys :
  declines k ->
  check_to_continue_body (k :: keys) = (Ok (Some false), keys, continue_dialogue k).
Proof. intros [-> | ->]; reflexivity. Qed.

Lemma check_loop_declined junk : forall n stop rest,
  Forall invalid_reply junk -> declines stop ->
  (List.length junk < n)%nat ->
  loop n check_to_continue_body (junk ++ stop :: rest)%list
  = (Ok false, rest, flat_map continue_dialogue (junk ++ [stop])).
Proof.
  induction junk as [|k junk IH]; intros n stop rest Hj Hs Hn.
  - destruct n as [|n]; [cbn in Hn; lia|].
    cbn [app flat_map]. rewrite app_nil_r.
    apply loop_stop, check_body_declines, Hs.
  - destruct n as [|n]; [cbn in Hn; lia|].
    inversion Hj as [|? ? Hk Hj']; subst.
    cbn [app]. rewrite (loop_again _ _ _ _ _ (check_body_invalid k _ Hk)).
    rewrite (IH n stop rest Hj' Hs) by (cbn in Hn; lia).
    reflexivity.
Qed.

Lemma check_to_continue_declined junk stop rest :
  Forall invalid_reply junk -> declines stop ->
  check_to_continue (junk ++ stop :: rest)%list
  = (Ok false, rest, flat_map continue_dialogue (junk ++ [stop])).
Proof.
  intros Hj Hs. unfold check_to_continue, input_loop.
  apply check_loop_declined; [assumption..|].
  rewrite length_app. cbn. lia.
Qed.

Lemma writes_continue_dialogue keys : writes (flat_map continue_dialogue keys) = [].
Proof.
  induction keys as [|k keys IH]; [reflexivity|].
  cbn [flat_map]. rewrite writes_app, IH, app_nil_r.
  destruct k as [s| |]; cbn; [destruct (_ || _)|..]; reflexivity.
Qed.

Lemma show_hsi_showable s keys :
  showable s ->
  exists evs, show_hsi s keys = (Ok tt, keys, evs) /\ writes evs = [].
Proof.
  destruct s as [C B]. unfold showable. cbn [hsi_C hsi_B]. intros [-> | [HC HB]].
  - exists []. split; reflexivity.
  - do 9 (destruct C as [|? C]; [cbn in HC; lia|]).
    do 3 (destruct B as [|? B]; [cbn in HB; lia|]).
    eexists. split; reflexivity.
Qed.

(** C9.  When the operator, after any number of invalid replies, answers
    ["n"] or presses Ctrl-C at the first continue prompt, the run returns
    normally: the only frames written are the two opening ones, and the
    last thing printed is the notice of the early stop. *)
Theorem declining_stops_the_run before_seen after_seen junk stop rest :
  showable before_seen ->
  Forall invalid_reply junk ->
  declines stop ->
  let run := run_hsi_calibration before_seen after_seen
               (junk ++ stop :: rest)%list in
  result_of run = Ok tt /\
  state_of run = rest /\
  writes (events_of run) = opening_frames /\
  last (events_of run) (Sleep 0) = Print "Stopping Before The HSI Estimation Step".
Proof.
  intros Hshow Hj Hs run.
  destruct (show_hsi_showable before_seen (junk ++ stop :: rest)%list Hshow)
    as [evs [Eshow Wshow]].
  assert (R : run
              = (Ok tt, rest,
                 ([Print "Turning Serial Port Async Messages Off";
                   Write (list_byte_of_string ("$VNWRG,07,0,1*70" ++ CRLF));
                   Print "Checking Value for HSI Parameters Currently";
                   Write (list_byte_of_string ("$VNRRG,47*70" ++ CRLF))]
                  ++ evs ++ flat_map continue_dialogue (junk ++ [stop])
                  ++ [Print "Stopping Before The HSI Estimation Step"])%list)).
  { unfold run, run_hsi_calibration.
    rewrite (bind_eq _ _ _ tt _ [Print "Turning Serial Port Async Messages Off"])
      by reflexivity.
    rewrite (bind_lift_ok _ (list_byte_of_string ("$VNWRG,07,0,1*70" ++ CRLF)))
      by reflexivity.
    rewrite (bind_eq _ _ _ tt _ [Write _]) by reflexivity.
    rewrite (bind_eq _ _ _ tt _ [Print _]) by reflexivity.
    rewrite (bind_lift_ok _ (list_byte_of_string ("$VNRRG,47*70" ++ CRLF)))
      by reflexivity.
    rewrite (bind_eq _ _ _ tt _ [Write _]) by reflexivity.
    rewrite (bind_eq _ _ _ _ _ _ Eshow).
    rewrite (bind_eq _ _ _ _ _ _ (check_to_continue_declined _ _ _ Hj Hs)).
    cbn [negb]. cbv beta iota. unfold emit, result_of, state_of, events_of.
    cbn [fst snd]. repeat (rewrite <- ?app_assoc; cbn [app]). reflexivity. }
  rewrite R. unfold result_of, state_of, events_of. cbn [fst snd].
  split; [reflexivity|]. split; [reflexivity|]. split.
  - cbn [app writes]. rewrite !writes_app, Wshow, writes_continue_dialogue.
    reflexivity.
  - rewrite !app_assoc. apply last_last.
Qed.

Lemma declining_stops_the_run_witness :
  let run := run_hsi_calibration sample_hsi_1 sample_hsi_2
               ([Typed "maybe"; Typed ""] ++ CtrlC :: [Typed "y"])%list in
  result_of run = Ok tt /\ state_of run = [Typed "y"] /\
  writes (events_of run) = opening_frames /\
  last (events_of run) (Sleep 0) = Print "Stopping Before The HSI Estimation Step".
Proof.
  apply declining_stops_the_run.
  - right. cbn. lia.
  - repeat constructor; discriminate.
  - right. reflexivity.
Defined.

(** *** The convergence-rate prompt *)

Lemma py_float_cases s :
  (exists x, py_float s = Ok x) \/ py_float s = Raise (ValueError s).
Proof.
  unfold py_float. destruct (take_sign (strip_by c_isspace s)) as [neg body].
  match goal with |- context [match ?a with Some _ => _ | None => _ end] =>
    destruct a end; eauto.
Qed.

(** One round of the prompt, by the text typed in. *)
Lemma conv_rate_body_non_numeric s keys :
  py_float s = Raise (ValueError s) ->
  conv_rate_body (Typed s :: keys) = (Raise (ValueError s), keys, [Prompt rate_prompt]).
Proof.
  intros H. unfold conv_rate_body, try_except.
  rewrite (bind_eq _ _ _ s keys [Prompt rate_prompt]) by reflexivity.
  rewrite (bind_lift_raise _ _ _ _ H). reflexivity.
Qed.

Lemma conv_rate_body_in_range s keys x frame :
  py_float s = Ok x ->
  float_le_int x 5 = true -> float_ge_int x 1 = true ->
  write_full_vn_message ("VNWRG,44,1,1," ++ s) = Ok frame ->
  conv_rate_body (Typed s :: keys)
  = (Ok (Some tt), keys, [Prompt rate_prompt; Write frame]).
Proof.
  intros H Hle Hge Hf. unfold conv_rate_body, try_except.
  rewrite (bind_eq _ _ _ s keys [Prompt rate_prompt]) by reflexivity.
  rewrite (bind_lift_ok _ _ _ _ H). rewrite Hle.
  rewrite (bind_eq _ _ _ true keys [])
    by (rewrite (bind_lift_ok _ _ _ _ H); cbn; now rewrite Hge).
  rewrite (bind_lift_ok _ _ _ _ Hf). reflexivity.
Qed.

Lemma conv_rate_body_out_of_range s keys x :
  py_float s = Ok x ->
  float_le_int x 5 && float_ge_int x 1 = false ->
  conv_rate_body (Typed s :: keys)
  = (Ok None, keys, [Prompt rate_prompt; Warn invalid_rate_warning]).
Proof.
  intros H Hr. unfold conv_rate_body, try_except.
  rewrite (bind_eq _ _ _ s keys [Prompt rate_prompt]) by reflexivity.
  rewrite (bind_lift_ok _ _ _ _ H).
  destruct (float_le_int x 5).
  - cbn in Hr.
    rewrite (bind_eq _ _ _ false keys [])
      by (rewrite (bind_lift_ok _ _ _ _ H); cbn; now rewrite Hr).
    reflexivity.
  - reflexivity.
Qed.

Lemma conv_rate_body_interrupt keys :
  conv_rate_body (CtrlC :: keys)
  = (Ok None, keys, [Prompt rate_prompt;
                     Print "HSI Input Never Gathered. Stopping Program..."]).
Proof. reflexivity. Qed.

(** The values the specification lists: 1 and 5 are taken, 0.999 and 5.001
    are refused and asked again. *)
Lemma conv_rate_listed_values :
  ask_conv_rate [Typed "1"; Typed "y"]
  = (Ok tt, [Typed "y"],
     [Prompt rate_prompt;
      Write (list_byte_of_string ("$VNWRG,44,1,1,1*6B" ++ CRLF))]) /\
  ask_conv_rate [Typed "5"]
  = (Ok tt, [],
     [Prompt rate_prompt;
      Write (list_byte_of_string ("$VNWRG,44,1,1,5*6F" ++ CRLF))]) /\
  ask_conv_rate [Typed "0.999"; Typed "5.001"; Typed "5"]
  = (Ok tt, [],
     [Prompt rate_prompt; Warn invalid_rate_warning;
      Prompt rate_prompt; Warn invalid_rate_warning;
      Prompt rate_prompt;
      Write (list_byte_of_string ("$VNWRG,44,1,1,5*6F" ++ CRLF))]).
Proof. repeat split; vm_compute; reflexivity. Qed.

(** C1, on the code.  A reply to the convergence-rate prompt that is not
    a number is not asked again: [float] raises [ValueError], which the
    handler for [KeyboardInterrupt] lets through, and the run ends with
    that exception before any estimation command is written. *)
Theorem non_numeric_rate_aborts_the_run :
  py_float "abc" = Raise (ValueError "abc") /\
  ask_conv_rate [Typed "abc"; Typed "3"]
  = (Raise (ValueError "abc"), [Typed "3"], [Prompt rate_prompt]) /\
  (let run := run_hsi_calibration sample_hsi_1 sample_hsi_2
                [Typed "y"; Typed "abc"; Typed "3"] in
   result_of run = Raise (ValueError "abc") /\
   state_of run = [Typed "3"] /\
   writes (events_of run) = opening_frames /\
   last (events_of run) (Sleep 0) = Prompt rate_prompt).
Proof. repeat split; vm_compute; reflexivity. Qed.

(** Whatever the text, a failure of [float] ends the prompt loop with the
    exception instead of a new prompt. *)
Lemma ask_conv_rate_non_numeric s keys :
  py_float s = Raise (ValueError s) ->
  ask_conv_rate (Typed s :: keys)
  = (Raise (ValueError s), keys, [Prompt rate_prompt]).
Proof.
  intros H. unfold ask_conv_rate, input_loop. cbn [List.length].
  apply loop_raise, conv_rate_body_non_numeric, H.
Qed.

(** *** Rounding and the bounds 1 and 5 *)

Lemma round_half_even_lower num den N :
  0 < den -> N * den <= num -> N <= round_half_even num den.
Proof.
  intros Hd H. unfold round_half_even. cbv zeta.
  assert (N <= num / den) by (apply Z.div_le_lower_bound; lia).
  destruct (2 * (num mod den) ?= den); try lia.
  destruct (Z.even (num / den)); lia.
Qed.

Lemma round_half_even_upper num den N :
  0 < den -> num <= N * den -> round_half_even num den <= N.
Proof.
  intros Hd H. unfold round_half_even. cbv zeta.
  pose proof (Z.div_mod num den ltac:(lia)) as E.
  pose proof (Z.mod_pos_bound num den Hd) as B.
  assert (Q : num / den <= N) by (apply Z.div_le_upper_bound; lia).
  assert (R : num / den = N -> num mod den = 0) by nia.
  destruct (Z.compare_spec (2 * (num mod den)) den) as [C|C|C]; try lia.
  destruct (Z.even (num / den)); lia.
Qed.

Lemma round_binary64_1_5 n d :
  0 < d -> d <= n <= 5 * d ->
  float_ge_int (round_binary64 n d) 1 = true /\
  float_le_int (round_binary64 n d) 5 = true.
Proof.
  intros Hd Hn. unfold round_binary64.
  set (k := Z.log2 n - Z.log2 d).
  assert (Hk : k <= 3).
  { assert (Z.log2 n <= Z.log2 (d * 2 ^ 3))
      by (apply Z.log2_le_mono; change (2 ^ 3) with 8; lia).
    rewrite Z.log2_mul_pow2 in H by lia. unfold k. lia. }
  set (k' := if (if k <? 0 then n * 2 ^ (- k) <? d else n <? d * 2 ^ k)
             then k - 1 else k).
  assert (Hk' : k' <= 3) by (unfold k'; destruct (if k <? 0 then _ else _); lia).
  set (e := Z.max (k' - 52) (-1074)).
  assert (He : -1074 <= e <= -49) by (unfold e; lia).
  assert (E0 : (e <? 0) = true) by (apply Z.ltb_lt; lia).
  rewrite E0.
  set (P := 2 ^ (- e)).
  assert (HP : 0 < P) by (apply Z.pow_pos_nonneg; lia).
  set (m := round_half_even (n * P) d).
  assert (Hlo : P <= m) by (apply round_half_even_lower; nia).
  assert (Hhi : m <= 5 * P) by (apply round_half_even_upper; nia).
  assert (P2 : P = 2 * 2 ^ (- (e + 1))).
  { unfold P. replace (- e) with (1 + - (e + 1)) by lia.
    rewrite Z.pow_add_r by lia. reflexivity. }
  destruct (Z.eqb_spec m (2 ^ 53)) as [M|M].
  - replace (971 <? e + 1) with false by (symmetry; apply Z.ltb_ge; lia).
    cbn [float_ge_int float_le_int].
    replace (e + 1 <? 0) with true by (symmetry; apply Z.ltb_lt; lia).
    change (2 ^ 53) with (2 * 2 ^ 52) in M.
    split; apply Z.leb_le; lia.
  - replace (971 <? e) with false by (symmetry; apply Z.ltb_ge; lia).
    cbn [float_ge_int float_le_int]. rewrite E0. fold P.
    split; apply Z.leb_le; lia.
Qed.

Lemma decimal_to_float_1_5 mant exp10 :
  0 < mant -> decimal_between 1 5 mant exp10 ->
  float_ge_int (decimal_to_float mant exp10) 1 = true /\
  float_le_int (decimal_to_float mant exp10) 5 = true.
Proof.
  intros Hm. unfold decimal_between, decimal_to_float.
  replace (mant =? 0) with false by (symmetry; apply Z.eqb_neq; lia).
  destruct (exp10 <? 0) eqn:E; intros H.
  - apply round_binary64_1_5; [apply Z.pow_pos_nonneg|]; lia.
  - apply round_binary64_1_5; lia.
Qed.

Lemma lower_is c x :
  lower c = x -> (x = "i" \/ x = "n")%char ->
  digit_val c = None /\ Ascii.eqb c "." = false.
Proof.
  intros <- H.
  destruct c as [[] [] [] [] [] [] [] []]; cbn in H;
    (split; [reflexivity | reflexivity]) ||
    (exfalso; destruct H as [H|H]; discriminate H).
Qed.

Lemma parse_floatnumber_not_word body mant exp10 :
  parse_floatnumber body = Some (mant, exp10) ->
  String.eqb (lowercase body) "inf" || String.eqb (lowercase body) "infinity" = false /\
  String.eqb (lowercase body) "nan" = false.
Proof.
  intros H. destruct body as [|c r]; [split; reflexivity|].
  cbn [lowercase].
  destruct (Ascii.eqb_spec (lower c) "i") as [Ei|Ni];
    [|destruct (Ascii.eqb_spec (lower c) "n") as [En|Nn]].
  - exfalso. destruct (lower_is c _ Ei (or_introl eq_refl)) as [D P].
    unfold parse_floatnumber in H. cbn [scan_digitpart] in H. rewrite D in H.
    destruct (Ascii.eqb c "_"); cbn in H; rewrite ?P in H; cbn in H;
      destruct c as [[] [] [] [] [] [] [] []]; cbn in *; discriminate.
  - exfalso. destruct (lower_is c _ En (or_intror eq_refl)) as [D P].
    unfold parse_floatnumber in H. cbn [scan_digitpart] in H. rewrite D in H.
    destruct (Ascii.eqb c "_"); cbn in H; rewrite ?P in H; cbn in H;
      destruct c as [[] [] [] [] [] [] [] []]; cbn in *; discriminate.
  - split.
    + cbn [String.eqb]. 
      replace (Ascii.eqb (lower c) "i") with false
        by (symmetry; apply Ascii.eqb_neq; exact Ni).
      reflexivity.
    + cbn [String.eqb].
      replace (Ascii.eqb (lower c) "n") with false
        by (symmetry; apply Ascii.eqb_neq; exact Nn).
      reflexivity.
Qed.

Lemma py_float_decimal s body mant exp10 :
  take_sign (strip_by c_isspace s) = (false, body) ->
  parse_floatnumber body = Some (mant, exp10) ->
  py_float s = Ok (decimal_to_float mant exp10).
Proof.
  intros Hs Hp. unfold py_float. rewrite Hs.
  destruct (parse_floatnumber_not_word _ _ _ Hp) as [-> ->].
  rewrite Hp. reflexivity.
Qed.

(** Every unsigned decimal text whose exact value lies in [1, 5] ends the
    prompt loop at once, with the start command written. *)
Lemma rate_in_range_is_accepted s body mant exp10 keys :
  all_ascii s = true ->
  take_sign (strip_by c_isspace s) = (false, body) ->
  parse_floatnumber body = Some (mant, exp10) ->
  0 < mant -> decimal_between 1 5 mant exp10 ->
  ask_conv_rate (Typed s :: keys)
  = (Ok tt, keys,
     [Prompt rate_prompt;
      Write (list_byte_of_string (spec_frame ("VNWRG,44,1,1," ++ s)))]).
Proof.
  intros Ha Hs Hp Hm Hr.
  destruct (decimal_to_float_1_5 _ _ Hm Hr) as [Hge Hle].
  unfold ask_conv_rate, input_loop. cbn [List.length].
  apply loop_stop.
  apply (conv_rate_body_in_range _ _ _ _ (py_float_decimal _ _ _ _ Hs Hp) Hle Hge).
  apply write_full_vn_message_ok.
  rewrite all_ascii_app, Ha. reflexivity.
Qed.

(** A reply whose value is out of range is warned about and asked again;
    one that rounds to 5.0 counts as 5. *)
Lemma rate_out_of_range_is_asked_again s x keys :
  py_float s = Ok x ->
  float_le_int x 5 && float_ge_int x 1 = false ->
  ask_conv_rate (Typed s :: keys)
  = (result_of (ask_conv_rate keys), state_of (ask_conv_rate keys),
     ([Prompt rate_prompt; Warn invalid_rate_warning]
      ++ events_of (ask_conv_rate keys))%list).
Proof.
  intros H Hr. unfold ask_conv_rate, input_loop. cbn [List.length].
  apply loop_again, (conv_rate_body_out_of_range _ _ _ H Hr).
Qed.

Lemma rate_rounding_edge :
  ask_conv_rate [Typed "5.0000000000000000001"]
  = (Ok tt, [],
     [Prompt rate_prompt;
      Write (list_byte_of_string
               ("$VNWRG,44,1,1,5.0000000000000000001*70" ++ CRLF))]).
Proof. vm_compute. reflexivity. Qed.

(** *** The fuel of the prompt loops

    A prompt loop is given one round more than there are keys; since each
    round takes a key, more rounds would change nothing: the loop never
    stops for want of fuel. *)

Lemma loop_fuel {A} (body : M console (option A)) :
  consumes body ->
  forall n m keys,
    (List.length keys < n)%nat -> (List.length keys < m)%nat ->
    loop n body keys = loop m body keys.
Proof.
  intros Hc. induction n as [|n IH]; intros m keys Hn Hm; [lia|].
  destruct m as [|m]; [lia|].
  cbn [loop]. unfold bind.
  destruct (body keys) as [[[[a|]|e|] keys'] ev] eqn:E; try reflexivity.
  pose proof (Hc _ _ _ E) as L.
  rewrite (IH m keys') by lia. reflexivity.
Qed.

Lemma check_to_continue_body_consumes : consumes check_to_continue_body.
Proof.
  intros [|[s| |] rest] keys' ev; cbn.
  - discriminate.
  - unfold check_to_continue_body, try_except, bind, input.
    destruct (String.eqb s "y"); [discriminate|].
    destruct (String.eqb s "n"); [discriminate|].
    cbn. intros [= <- _]. lia.
  - discriminate.
  - discriminate.
Qed.

Lemma conv_rate_body_consumes : consumes conv_rate_body.
Proof.
  intros [|[s| |] rest] keys' ev.
  - discriminate.
  - destruct (py_float_cases s) as [[x Hx] | Hx].
    + destruct (float_le_int x 5 && float_ge_int x 1) eqn:R.
      * apply andb_true_iff in R as [Rl Rg].
        destruct (write_full_vn_message ("VNWRG,44,1,1," ++ s)) as [f|e|] eqn:F.
        -- rewrite (conv_rate_body_in_range _ _ _ _ Hx Rl Rg F). discriminate.
        -- unfold conv_rate_body, try_except.
           rewrite (bind_eq _ _ _ s rest [Prompt rate_prompt]) by reflexivity.
           rewrite (bind_lift_ok _ _ _ _ Hx). rewrite Rl.
           rewrite (bind_eq _ _ _ true rest [])
             by (rewrite (bind_lift_ok _ _ _ _ Hx); cbn; now rewrite Rg).
           rewrite (bind_lift_raise _ _ _ _ F). cbn.
           destruct (is_KeyboardInterrupt e); cbn; [intros [= <- _]; lia | discriminate].
        -- unfold conv_rate_body, try_except.
           rewrite (bind_eq _ _ _ s rest [Prompt rate_prompt]) by reflexivity.
           rewrite (bind_lift_ok _ _ _ _ Hx). rewrite Rl.
           rewrite (bind_eq _ _ _ true rest [])
             by (rewrite (bind_lift_ok _ _ _ _ Hx); cbn; now rewrite Rg).
           unfold bind, lift. rewrite F. discriminate.
      * rewrite (conv_rate_body_out_of_range _ _ _ Hx R). intros [= <- _]. cbn. lia.
    + rewrite (conv_rate_body_non_numeric _ _ Hx). discriminate.
  - rewrite conv_rate_body_interrupt. intros [= <- _]. cbn. lia.
  - discriminate.
Qed.

Lemma check_to_continue_fuel n keys :
  (List.length keys < n)%nat ->
  loop n check_to_continue_body keys = check_to_continue keys.
Proof.
  intros H. unfold check_to_continue, input_loop.
  apply loop_fuel; [apply check_to_continue_body_consumes | lia | lia].
Qed.

Lemma ask_conv_rate_fuel n keys :
  (List.length keys < n)%nat ->
  loop n conv_rate_body keys = ask_conv_rate keys.
Proof.
  intros H. unfold ask_conv_rate, input_loop.
  apply loop_fuel; [apply conv_rate_body_consumes | lia | lia].
Qed.

(** * Further properties *)

(** ** Frame codec: errors, blind spots, injectivity *)

Lemma encode_ascii_fails s :
  all_ascii s = false -> encode_ascii s = Raise UnicodeEncodeError.
Proof. unfold encode_ascii, all_ascii. now intros ->. Qed.

(** X1.  A payload that holds a character outside ASCII is refused by both
    codec functions with [UnicodeEncodeError], and that is their only
    failure: on every other payload they return a value. *)
Theorem codec_fails_only_outside_ascii payload :
  (all_ascii payload = false ->
     vn_checksum payload = Raise UnicodeEncodeError /\
     write_full_vn_message payload = Raise UnicodeEncodeError) /\
  (all_ascii payload = true ->
     exists cks frame,
       vn_checksum payload = Ok cks /\ write_full_vn_message payload = Ok frame).
Proof.
  split; intros H.
  - unfold write_full_vn_message, vn_checksum.
    rewrite (encode_ascii_fails _ H). split; reflexivity.
  - rewrite (vn_checksum_ok _ H), (write_full_vn_message_ok _ H). eauto.
Qed.

Lemma codec_fails_only_outside_ascii_witness :
  vn_checksum (String "233"%char "VNWNV") = Raise UnicodeEncodeError /\
  write_full_vn_message (String "233"%char "VNWNV") = Raise UnicodeEncodeError.
Proof.
  apply (proj1 (codec_fails_only_outside_ascii (String "233"%char "VNWNV"))).
  reflexivity.
Defined.





Lemma string_length_app s t :
  String.length (s ++ t) = (String.length s + String.length t)%nat.
Proof. induction s as [|c s IH]; cbn; [reflexivity | now rewrite IH]. Qed.

Lemma list_byte_length s :
  List.length (list_byte_of_string s) = String.length s.
Proof.
  unfold list_byte_of_string. rewrite length_map.
  induction s as [|c s IH]; cbn; [reflexivity | now rewrite IH].
Qed.

Lemma append_same_length_tail a : forall b s t,
  String.length s = String.length t -> a ++ s = b ++ t -> a = b.
Proof.
  induction a as [|x a IH]; intros [|y b] s t L E; cbn in E.
  - reflexivity.
  - exfalso. apply (f_equal String.length) in E. cbn in E.
    rewrite string_length_app in E. lia.
  - exfalso. apply (f_equal String.length) in E. cbn in E.
    rewrite string_length_app in E. lia.
  - injection E as -> E. f_equal. exact (IH _ _ _ L E).
Qed.

Lemma list_byte_of_string_inj s t :
  list_byte_of_string s = list_byte_of_string t -> s = t.
Proof.
  intros H. apply (f_equal string_of_list_byte) in H.
  now rewrite !string_of_list_byte_of_string in H.
Qed.

Lemma write_full_vn_message_inv payload frame :
  write_full_vn_message payload = Ok frame ->
  all_ascii payload = true /\ frame = list_byte_of_string (spec_frame payload).
Proof.
  intros H. destruct (all_ascii payload) eqn:A.
  - rewrite (write_full_vn_message_ok _ A) in H. injection H as <-. auto.
  - destruct (proj1 (codec_fails_only_outside_ascii payload) A) as [_ R].
    rewrite R in H. discriminate.
Qed.

(** X3.  Two payloads that are framed alike are the same payload, and a
    frame is six bytes longer than its payload. *)
Theorem write_full_vn_message_injective p q frame :
  write_full_vn_message p = Ok frame ->
  write_full_vn_message q = Ok frame ->
  p = q /\ List.length frame = (String.length p + 6)%nat.
Proof.
  intros Hp Hq.
  destruct (write_full_vn_message_inv _ _ Hp) as [Ap Fp].
  destruct (write_full_vn_message_inv _ _ Hq) as [Aq Fq].
  split.
  - rewrite Fp in Fq. apply list_byte_of_string_inj in Fq.
    unfold spec_frame in Fq. injection Fq as Fq.
    refine (append_same_length_tail _ _ _ _ _ Fq). reflexivity.
  - rewrite Fp, list_byte_length. unfold spec_frame.
    rewrite !string_length_app. cbn. lia.
Qed.

Lemma write_full_vn_message_injective_witness :
  "VNWNV" = "VNWNV" /\
  List.length (list_byte_of_string ("$VNWNV*57" ++ CRLF)) = (5 + 6)%nat.
Proof.
  apply (write_full_vn_message_injective "VNWNV" "VNWNV"); reflexivity.
Defined.

(** ** Reader task: what a line is cut down to *)

Lemma lstrip_app_keep p s x t :
  p x = false -> lstrip p (s ++ String x t) = lstrip p s ++ String x t.
Proof.
  intros H. induction s as [|c s IH]; cbn.
  - now rewrite H.
  - destruct (p c); [exact IH | reflexivity].
Qed.

Lemma rstrip_cons_keep p x t :
  p x = false -> rstrip p (String x t) = String x (rstrip p t).
Proof. intros H. cbn. rewrite H. destruct (rstrip p t); reflexivity. Qed.

Lemma rstrip_app_keep p s x t :
  p x = false -> rstrip p (s ++ String x t) = s ++ String x (rstrip p t).
Proof.
  intros H. induction s as [|c s IH].
  - apply rstrip_cons_keep, H.
  - change (rstrip p (String c s ++ String x t))
      with (match rstrip p (s ++ String x t) with
            | EmptyString => if p c then EmptyString else String c EmptyString
            | String a b => String c (String a b)
            end).
    rewrite IH. destruct s; reflexivity.
Qed.

Lemma string_of_list_byte_app (a b : bytes) :
  string_of_list_byte (a ++ b)%list = string_of_list_byte a ++ string_of_list_byte b.
Proof.
  unfold string_of_list_byte. induction a as [|x a IH]; cbn; [reflexivity|].
  now rewrite IH.
Qed.

Lemma decode_ascii_ignore_app (a b : bytes) :
  decode_ascii_ignore (a ++ b)%list = decode_ascii_ignore a ++ decode_ascii_ignore b.
Proof.
  unfold decode_ascii_ignore. now rewrite filter_app, string_of_list_byte_app.
Qed.

Lemma contains_lstrip c p s : contains c s = false -> contains c (lstrip p s) = false.
Proof.
  unfold contains. induction s as [|x s IH]; cbn; [auto|].
  intros H. apply orb_false_iff in H as [Hx Hs].
  destruct (p x); [auto|]. cbn. now rewrite Hx, Hs.
Qed.

Lemma contains_decode_ascii_ignore c a :
  forallb (fun b => negb (Ascii.eqb c (ascii_of_byte b))) a = true ->
  contains c (decode_ascii_ignore a) = false.
Proof.
  unfold contains, decode_ascii_ignore, string_of_list_byte.
  rewrite list_ascii_of_string_of_list_ascii.
  induction a as [|b a IH]; cbn; [reflexivity|].
  intros H. apply andb_true_iff in H as [Hb Ha].
  destruct (byte_code b <? 128); cbn; [|auto].
  apply negb_true_iff in Hb. rewrite Hb. auto.
Qed.

(** A line with a ['*'] in it: what is kept is the text before the first
    ['*'], left-stripped, whatever comes after. *)
Lemma decode_cut (a c : bytes) :
  forallb (fun b => negb (Ascii.eqb "*" (ascii_of_byte b))) a = true ->
  let head := lstrip py_isspace (decode_ascii_ignore a) in
  decode (a ++ "*"%byte :: c)%list
  = Ok (Some (head ++ String "*" (rstrip py_isspace (decode_ascii_ignore c)),
              str_split "," head,
              str_strip_chars "$" (hd "" (str_split "," head)))).
Proof.
  intros Ha head. unfold decode.
  rewrite decode_ascii_ignore_app.
  change (decode_ascii_ignore ("*"%byte :: c))
    with (String "*" (decode_ascii_ignore c)).
  unfold str_strip, strip_by.
  rewrite lstrip_app_keep by reflexivity. fold head.
  rewrite rstrip_app_keep by reflexivity.
  replace (String.eqb (head ++ String "*" _) "") with false
    by (destruct head; reflexivity).
  rewrite split_head_no_sep
    by (apply contains_lstrip, contains_decode_ascii_ignore, Ha).
  cbn [getitem nth_error obind].
  destruct (str_split_nonempty "," head) as [f [fs ->]]. reflexivity.
Qed.

Lemma reader_iter_decode r1 r2 st :
  decode r1 = decode r2 -> reader_iter (Ok r1) st = reader_iter (Ok r2) st.
Proof.
  intros H. unfold reader_iter, try_except, reader_body.
  rewrite (bind_lift_ok _ r1), (bind_lift_ok _ r2) by reflexivity.
  unfold bind at 1 3. unfold lift at 1 3. rewrite H. reflexivity.
Qed.

(** X4.  A byte of 128 or above changes nothing, wherever it sits in the
    line: the iteration does what it does on the line without it. *)
Theorem reader_ignores_non_ascii_bytes (a : bytes) b c st :
  not_ascii_byte b = true ->
  reader_iter (Ok (a ++ b :: c)%list) st = reader_iter (Ok (a ++ c)%list) st.
Proof.
  intros H. apply reader_iter_decode. unfold decode.
  replace (decode_ascii_ignore (a ++ b :: c)%list)
    with (decode_ascii_ignore (a ++ c)%list);
    [reflexivity|].
  rewrite !decode_ascii_ignore_app. f_equal.
  unfold decode_ascii_ignore. cbn [filter].
  unfold not_ascii_byte in H. apply negb_true_iff in H. now rewrite H.
Qed.

Lemma reader_ignores_non_ascii_bytes_witness :
  reader_iter (Ok (list_byte_of_string "$VNRRG,4" ++ xff
                      :: list_byte_of_string "7,1,2")%list) init
  = (Ok tt, {| hsi_before := {| hsi_C := ["1"; "2"]; hsi_B := [] |};
               hsi_after := hsi_after init |}, []).
Proof.
  rewrite reader_ignores_non_ascii_bytes; reflexivity.
Defined.

Lemma hsi_reply_fields_cut (a c1 c2 : bytes) :
  star_free a = true ->
  hsi_reply_fields (a ++ "*"%byte :: c1)%list
  = hsi_reply_fields (a ++ "*"%byte :: c2)%list.
Proof.
  intros Ha. unfold hsi_reply_fields.
  rewrite (decode_cut a c1 Ha), (decode_cut a c2 Ha). reflexivity.
Qed.

(** X5.  What follows the first ['*'] of a line, the checksum included, is
    never looked at: two lines that agree up to there are classified
    alike and leave the store in the same state; when they are
    register-47 acknowledgments the iterations agree in everything. *)
Theorem reader_does_not_check_checksum (a c1 c2 : bytes) st :
  star_free a = true ->
  let line1 : bytes := (a ++ "*"%byte :: c1)%list in
  let line2 : bytes := (a ++ "*"%byte :: c2)%list in
  hsi_reply_fields line1 = hsi_reply_fields line2 /\
  state_of (reader_iter (Ok line1) st) = state_of (reader_iter (Ok line2) st) /\
  (hsi_reply_fields line1 <> None ->
   reader_iter (Ok line1) st = reader_iter (Ok line2) st).
Proof.
  intros Ha line1 line2.
  pose proof (hsi_reply_fields_cut a c1 c2 Ha) as E. fold line1 line2 in E.
  clearbody line1 line2.
  split; [exact E|].
  destruct (hsi_reply_fields line1) as [fields|] eqn:E1.
  - symmetry in E.
    rewrite (reader_iter_hsi_reply _ _ _ E1), (reader_iter_hsi_reply _ _ _ E).
    split; reflexivity.
  - symmetry in E.
    destruct (reader_iter_other line1 st E1) as [ev1 ->].
    destruct (reader_iter_other line2 st E) as [ev2 ->].
    split; [reflexivity | congruence].
Qed.

Lemma reader_does_not_check_checksum_witness :
  reader_iter (Ok (list_byte_of_string "$VNRRG,47,1,2"
                   ++ "*"%byte :: list_byte_of_string "FF")%list) init
  = reader_iter (Ok (list_byte_of_string "$VNRRG,47,1,2"
                     ++ "*"%byte :: list_byte_of_string "00 junk")%list) init.
Proof.
  refine (proj2 (proj2 (reader_does_not_check_checksum
                          (list_byte_of_string "$VNRRG,47,1,2")
                          (list_byte_of_string "FF")
                          (list_byte_of_string "00 junk") init _)) _).
  - reflexivity.
  - vm_compute. discriminate.
Defined.

(** ** Reader task: reading what the codec writes *)

Lemma list_byte_of_string_app s t :
  list_byte_of_string (s ++ t)
  = (list_byte_of_string s ++ list_byte_of_string t)%list.
Proof.
  unfold list_byte_of_string. induction s as [|c s IH]; cbn; [reflexivity|].
  now rewrite IH.
Qed.

Lemma contains_app c s t : contains c (s ++ t) = contains c s || contains c t.
Proof.
  unfold contains. induction s as [|x s IH]; cbn; [reflexivity|].
  now rewrite IH, orb_assoc.
Qed.

Lemma star_free_of_string s :
  contains "*" s = false -> star_free (list_byte_of_string s) = true.
Proof.
  unfold contains, star_free, list_byte_of_string.
  induction s as [|c s IH]; cbn; [reflexivity|].
  intros H. apply orb_false_iff in H as [Hc Hs].
  rewrite ascii_of_byte_of_ascii, Hc. cbn. auto.
Qed.

Lemma decode_frame payload :
  all_ascii payload = true -> contains "*" payload = false ->
  decode (list_byte_of_string (spec_frame payload))
  = Ok (Some ("$" ++ payload ++ "*" ++ spec_hex_pair (spec_checksum payload),
              str_split "," ("$" ++ payload),
              str_strip_chars "$" (hd "" (str_split "," ("$" ++ payload))))).
Proof.
  intros Ha Hs.
  set (x := spec_checksum payload).
  assert (Hx : 0 <= x < 256)
    by (pose proof (spec_checksum_range _ Ha); unfold x; lia).
  assert (A1 : all_ascii ("$" ++ payload) = true)
    by (rewrite all_ascii_app, Ha; reflexivity).
  assert (A2 : all_ascii (spec_hex_pair x ++ CRLF) = true)
    by (rewrite all_ascii_app, spec_hex_pair_ascii by exact Hx; reflexivity).
  unfold spec_frame. fold x.
  replace (list_byte_of_string ("$" ++ payload ++ "*" ++ spec_hex_pair x ++ CRLF))
    with (list_byte_of_string ("$" ++ payload)
          ++ "*"%byte :: list_byte_of_string (spec_hex_pair x ++ CRLF))%list.
  2:{ change ("$" ++ payload ++ "*" ++ spec_hex_pair x ++ CRLF)
        with (("$" ++ payload) ++ String "*" (spec_hex_pair x ++ CRLF)).
      rewrite (list_byte_of_string_app ("$" ++ payload)). reflexivity. }
  rewrite decode_cut
    by (apply star_free_of_string; rewrite contains_app, Hs; reflexivity).
  rewrite !decode_ascii_ignore_ascii by assumption.
  rewrite rstrip_drop by reflexivity.
  replace (rstrip py_isspace (spec_hex_pair x)) with (spec_hex_pair x).
  - reflexivity.
  - symmetry. unfold spec_hex_pair.
    apply (rstrip_keep _ (String (spec_hex_digit (x / 16)) "")).
    assert (A : forallb (fun x => negb (py_isspace (spec_hex_digit (x mod 16))))
                  (map Z.of_nat (seq 0 256)) = true) by (vm_compute; reflexivity).
    rewrite forallb_forall in A. apply negb_true_iff, A, In_range_256, Hx.
Qed.

Lemma split_no_sep sep s : contains sep s = false -> str_split sep s = [s].
Proof.
  unfold contains. induction s as [|c s IH]; cbn; [reflexivity|].
  intros H. apply orb_false_iff in H as [Hc Hs].
  rewrite Ascii.eqb_sym, Hc, (IH Hs). reflexivity.
Qed.

Lemma split_join f fs :
  forallb (fun g => negb (contains "," g)) (f :: fs) = true ->
  str_split "," (join_fields (f :: fs)) = f :: fs.
Proof.
  revert f. induction fs as [|g fs IH]; intros f H.
  - cbn in H. rewrite andb_true_r in H. apply negb_true_iff in H.
    now apply split_no_sep.
  - cbn [forallb] in H. apply andb_true_iff in H as [Hf H].
    apply negb_true_iff in Hf.
    change (join_fields (f :: g :: fs)) with (f ++ String "," (join_fields (g :: fs))).
    rewrite (split_head_no_sep _ _ _ Hf), (IH g H). reflexivity.
Qed.

Lemma plain_field_parts f :
  plain_field f = true ->
  all_ascii f = true /\ contains "," f = false /\ contains "*" f = false.
Proof.
  unfold plain_field. intros H.
  apply andb_true_iff in H as [H H3]. apply andb_true_iff in H as [H1 H2].
  apply negb_true_iff in H2, H3. auto.
Qed.

Lemma join_plain f fs :
  forallb plain_field (f :: fs) = true ->
  all_ascii (join_fields (f :: fs)) = true /\
  contains "*" (join_fields (f :: fs)) = false /\
  str_split "," ("$" ++ join_fields (f :: fs)) = ("$" ++ f) :: fs.
Proof.
  intros H.
  assert (S1 : forallb (fun g => negb (contains "," g)) (("$" ++ f) :: fs) = true).
  { cbn [forallb] in *. apply andb_true_iff in H as [Hf H].
    destruct (plain_field_parts _ Hf) as [_ [Hc _]].
    rewrite contains_app, Hc. cbn [orb negb andb contains].
    apply forallb_forall. intros g Hg. rewrite forallb_forall in H.
    destruct (plain_field_parts _ (H g Hg)) as [_ [-> _]]. reflexivity. }
  split; [|split].
  - clear S1. revert f H. induction fs as [|g fs IH]; intros f H.
    + cbn in H. rewrite andb_true_r in H. apply plain_field_parts in H. tauto.
    + cbn [forallb] in H. apply andb_true_iff in H as [Hf H].
      change (join_fields (f :: g :: fs)) with (f ++ "," ++ join_fields (g :: fs)).
      rewrite !all_ascii_app, (IH g H).
      apply plain_field_parts in Hf. destruct Hf as [-> _]. reflexivity.
  - clear S1. revert f H. induction fs as [|g fs IH]; intros f H.
    + cbn in H. rewrite andb_true_r in H. apply plain_field_parts in H. tauto.
    + cbn [forallb] in H. apply andb_true_iff in H as [Hf H].
      change (join_fields (f :: g :: fs)) with (f ++ "," ++ join_fields (g :: fs)).
      rewrite !contains_app, (IH g H).
      apply plain_field_parts in Hf. destruct Hf as [_ [_ ->]]. reflexivity.
  - replace ("$" ++ join_fields (f :: fs)) with (join_fields (("$" ++ f) :: fs))
      by (destruct fs; reflexivity).
    apply split_join, S1.
Qed.

(** The iteration on the frame of a payload made of plain fields. *)
Lemma decode_joined_frame f fs :
  forallb plain_field (f :: fs) = true ->
  let payload := join_fields (f :: fs) in
  write_full_vn_message payload = Ok (list_byte_of_string (spec_frame payload)) /\
  decode (list_byte_of_string (spec_frame payload))
  = Ok (Some ("$" ++ payload ++ "*" ++ spec_hex_pair (spec_checksum payload),
              ("$" ++ f) :: fs,
              str_strip_chars "$" f)).
Proof.
  intros H payload. destruct (join_plain f fs H) as [Ha [Hs Hsplit]].
  split; [now apply write_full_vn_message_ok|].
  unfold payload. rewrite (decode_frame _ Ha Hs), Hsplit. cbn [hd].
  change ("$" ++ f) with (String "$" f).
  unfold str_strip_chars. rewrite strip_by_skip by reflexivity. reflexivity.
Qed.

Lemma reader_iter_error raw msg fields code st :
  decode raw = Ok (Some (msg, fields, "VNERR")) ->
  getitem fields 1 = Ok code ->
  reader_iter (Ok raw) st
  = (Ok tt, st, [Warn ("Error code " ++ code ++ " in vn100 node")]).
Proof.
  intros E Ec. unfold reader_iter, try_except, reader_body.
  rewrite (bind_lift_ok _ raw) by reflexivity.
  rewrite (bind_lift_ok _ _ _ _ E). cbv beta iota.
  rewrite (bind_lift_ok _ false) by reflexivity. cbv beta iota.
  change (String.eqb "VNERR" "VNERR") with true. cbv beta iota.
  rewrite (bind_lift_ok _ _ _ _ Ec). reflexivity.
Qed.

Lemma reader_iter_unhandled raw msg fields tag st :
  decode raw = Ok (Some (msg, fields, tag)) ->
  is_hsi_reply tag fields = Ok false ->
  tag <> "VNERR" ->
  reader_iter (Ok raw) st = (Ok tt, st, [Print ("Unhandled Message: " ++ msg)]).
Proof.
  intros E Eh Ht. apply String.eqb_neq in Ht.
  unfold reader_iter, try_except, reader_body.
  rewrite (bind_lift_ok _ raw) by reflexivity.
  rewrite (bind_lift_ok _ _ _ _ E). cbv beta iota.
  rewrite (bind_lift_ok _ _ _ _ Eh). cbv beta iota.
  rewrite Ht. reflexivity.
Qed.

(** X6.  The reader stores what the codec frames: the frame of the fields
    VNRRG, a register text that [int] reads as 47, and data fields, read
    while "before" is empty, puts the first nine data fields in its matrix
    and the next three in its bias, touches nothing else and prints
    nothing. *)
Theorem encoded_reply_is_captured reg ds st :
  forallb plain_field (reg :: ds) = true ->
  py_int reg = Ok 47 ->
  populated (hsi_before st) = false ->
  exists frame,
    write_full_vn_message (join_fields ("VNRRG" :: reg :: ds)) = Ok frame /\
    reader_iter (Ok frame) st
    = (Ok tt,
       {| hsi_before := {| hsi_C := firstn 9 ds; hsi_B := firstn 3 (skipn 9 ds) |};
          hsi_after := hsi_after st |}, []).
Proof.
  intros Hp Hr Hb.
  destruct (decode_joined_frame "VNRRG" (reg :: ds)) as [W D];
    [change (plain_field "VNRRG" && forallb plain_field (reg :: ds) = true);
     rewrite Hp; reflexivity|].
  eexists. split; [exact W|].
  assert (F : hsi_reply_fields
                (list_byte_of_string (spec_frame (join_fields ("VNRRG" :: reg :: ds))))
              = Some ("$VNRRG" :: reg :: ds)).
  { unfold hsi_reply_fields. rewrite D.
    change (str_strip_chars "$" "VNRRG") with "VNRRG".
    unfold is_hsi_reply. cbn [String.eqb Ascii.eqb Bool.eqb getitem nth_error obind].
    rewrite Hr. reflexivity. }
  rewrite (reader_iter_hsi_reply _ _ _ F), (capture_before _ _ Hb).
  reflexivity.
Qed.

Lemma encoded_reply_is_captured_witness :
  exists frame,
    write_full_vn_message
      (join_fields ("VNRRG" :: " 047" :: ["1"; "2"; "3"; "4"; "5"; "6"; "7"; "8";
                                          "9"; "0.1"; "0.2"; "0.3"; "extra"]))
    = Ok frame /\
    reader_iter (Ok frame) init
    = (Ok tt, {| hsi_before := sample_hsi_1; hsi_after := hsi_after init |}, []).
Proof.
  apply (encoded_reply_is_captured " 047"
           ["1"; "2"; "3"; "4"; "5"; "6"; "7"; "8"; "9"; "0.1"; "0.2"; "0.3"; "extra"]
           init); reflexivity.
Defined.

(** X7.  The frame of an error notification, VNERR then a code, is
    answered by one warning that carries the code, and changes nothing. *)
Theorem encoded_error_is_reported code more st :
  forallb plain_field (code :: more) = true ->
  exists frame,
    write_full_vn_message (join_fields ("VNERR" :: code :: more)) = Ok frame /\
    reader_iter (Ok frame) st
    = (Ok tt, st, [Warn ("Error code " ++ code ++ " in vn100 node")]).
Proof.
  intros Hp.
  destruct (decode_joined_frame "VNERR" (code :: more)) as [W D];
    [change (plain_field "VNERR" && forallb plain_field (code :: more) = true);
     rewrite Hp; reflexivity|].
  eexists. split; [exact W|].
  change (str_strip_chars "$" "VNERR") with "VNERR" in D.
  apply (reader_iter_error _ _ _ _ _ D). reflexivity.
Qed.

Lemma encoded_error_is_reported_witness :
  exists frame,
    write_full_vn_message "VNERR,03" = Ok frame /\
    reader_iter (Ok frame) init
    = (Ok tt, init, [Warn "Error code 03 in vn100 node"]).
Proof.
  apply (encoded_error_is_reported "03" [] init). reflexivity.
Defined.

(** X8.  Every other frame is only printed: when its tag, the ['$'] signs
    around it set aside, is neither VNRRG nor VNERR, or when it is VNRRG
    with a register that [int] reads as another number than 47, the
    stripped line is printed after "Unhandled Message: " and the store is
    left alone. *)
Theorem encoded_other_message_is_unhandled tag rest st :
  forallb plain_field (tag :: rest) = true ->
  (str_strip_chars "$" tag <> "VNRRG" /\ str_strip_chars "$" tag <> "VNERR") \/
  (str_strip_chars "$" tag = "VNRRG" /\
   exists reg ds n, rest = reg :: ds /\ py_int reg = Ok n /\ n <> 47) ->
  let payload := join_fields (tag :: rest) in
  exists frame cks,
    write_full_vn_message payload = Ok frame /\
    vn_checksum payload = Ok cks /\
    reader_iter (Ok frame) st
    = (Ok tt, st, [Print ("Unhandled Message: $" ++ payload ++ "*" ++ cks)]).
Proof.
  intros Hp Hcase payload.
  destruct (decode_joined_frame tag rest Hp) as [W D]. fold payload in W, D.
  destruct (join_plain tag rest Hp) as [Ha _]. fold payload in Ha.
  exists (list_byte_of_string (spec_frame payload)),
         (spec_hex_pair (spec_checksum payload)).
  split; [exact W|]. split; [now apply vn_checksum_ok|].
  apply (reader_iter_unhandled _ _ _ _ _ D).
  - unfold is_hsi_reply. destruct Hcase as [[H1 _] | [H1 [reg [ds [n [-> [Hr Hn]]]]]]].
    + apply String.eqb_neq in H1. now rewrite H1.
    + rewrite H1. cbn [String.eqb Ascii.eqb Bool.eqb getitem nth_error obind].
      rewrite Hr. cbn [obind]. apply Z.eqb_neq in Hn. now rewrite Hn.
  - destruct Hcase as [[_ H2] | [H1 _]]; [exact H2 | rewrite H1; discriminate].
Qed.

Lemma encoded_other_message_is_unhandled_witness :
  (exists frame cks,
     write_full_vn_message "VNWRG,07,0,1" = Ok frame /\
     vn_checksum "VNWRG,07,0,1" = Ok cks /\
     reader_iter (Ok frame) init
     = (Ok tt, init, [Print ("Unhandled Message: $" ++ "VNWRG,07,0,1" ++ "*" ++ cks)])) /\
  (exists frame cks,
     write_full_vn_message "VNRRG,07,40" = Ok frame /\
     vn_checksum "VNRRG,07,40" = Ok cks /\
     reader_iter (Ok frame) init
     = (Ok tt, init, [Print ("Unhandled Message: $" ++ "VNRRG,07,40" ++ "*" ++ cks)])).
Proof.
  split.
  - apply (encoded_other_message_is_unhandled "VNWRG" ["07"; "0"; "1"] init).
    + reflexivity.
    + left. split; discriminate.
  - apply (encoded_other_message_is_unhandled "VNRRG" ["07"; "40"] init).
    + reflexivity.
    + right. split; [reflexivity|].
      exists "07", ["40"], 7. repeat split; discriminate.
Defined.

(** ** Reader task: what every run keeps *)

Lemma snapshot_of_tidy parsed_msg : tidy_snapshot (snapshot_of parsed_msg).
Proof.
  unfold tidy_snapshot, snapshot_of, slice. cbn [hsi_C hsi_B].
  rewrite !length_firstn, !length_skipn. split; [lia|]. split; [lia|].
  intros H.
  assert (11 < List.length parsed_msg)%nat.
  { destruct (Nat.le_gt_cases (List.length parsed_msg) 11) as [L|L]; [|exact L].
    exfalso. apply H. rewrite skipn_all2 by exact L. reflexivity. }
  lia.
Qed.

Lemma capture_tidy parsed_msg st :
  tidy_store st -> tidy_store (state_of (capture parsed_msg st)).
Proof.
  intros [Tb [Ta Ord]].
  destruct (populated (hsi_before st)) eqn:Hb.
  - destruct (populated (hsi_after st)) eqn:Ha.
    + rewrite (capture_full _ _ Hb Ha). exact (conj Tb (conj Ta (fun _ => Hb))).
    + rewrite (capture_after _ _ Hb Ha). unfold state_of, tidy_store. cbn [fst snd hsi_before hsi_after].
      split; [exact Tb|]. split; [apply snapshot_of_tidy|]. intros _. exact Hb.
  - rewrite (capture_before _ _ Hb). unfold state_of, tidy_store. cbn [fst snd hsi_before hsi_after].
    split; [apply snapshot_of_tidy|]. split; [exact Ta|].
    intros H. discriminate (Ord H).
Qed.

Lemma reader_iter_tidy line st :
  tidy_store st -> tidy_store (state_of (reader_iter line st)).
Proof.
  intros T. destruct line as [raw|e|].
  - destruct (hsi_reply_fields raw) as [fields|] eqn:E.
    + rewrite (reader_iter_hsi_reply _ _ _ E). now apply capture_tidy.
    + destruct (reader_iter_other raw st E) as [evs ->]. exact T.
  - unfold reader_iter, try_except, reader_body.
    rewrite (bind_lift_raise _ _ _ _ eq_refl).
    destruct (is_Exception e); exact T.
  - exact T.
Qed.

(** X9.  From the initial state, and from any state of that shape,
    whatever the reader reads: a matrix never has more than nine entries
    nor a bias more than three, a bias is stored only beside a full
    matrix, and "after" is never populated while "before" is empty. *)
Theorem store_stays_tidy reads st :
  tidy_store init /\
  (tidy_store st -> tidy_store (state_of (reader reads st))).
Proof.
  split.
  - unfold tidy_store, tidy_snapshot, init. cbn.
    repeat split; try lia; congruence.
  - revert st. induction reads as [|line rest IH]; intros st T.
    + exact T.
    + cbn [reader]. rewrite state_of_bind.
      pose proof (reader_iter_tidy line st T) as T1.
      destruct (result_of (reader_iter line st)); auto.
Qed.

Lemma store_stays_tidy_witness :
  tidy_store
    (state_of (reader [Ok (list_byte_of_string "$VNRRG,47,1,2,3,4,5,6,7,8,9,10");
                       Ok sample_reply_2; Ok sample_reply_1] init)).
Proof.
  apply (proj2 (store_stays_tidy _ init)).
  apply (proj1 (store_stays_tidy [] init)).
Defined.

Lemma events_of_bind {St A B} (c : M St A) (k : A -> M St B) s :
  events_of (bind c k s)
  = match result_of (c s) with
    | Ok a => (events_of (c s) ++ events_of (k a (state_of (c s))))%list
    | _ => events_of (c s)
    end.
Proof.
  unfold bind, result_of, state_of, events_of.
  destruct (c s) as [[[a|e|] s1] ev1]; cbn; try reflexivity.
  destruct (k a s1) as [[r s2] ev2]. reflexivity.
Qed.

Lemma capture_events parsed_msg st :
  forallb console_output (events_of (capture parsed_msg st)) = true.
Proof.
  destruct (populated (hsi_before st)) eqn:Hb.
  - destruct (populated (hsi_after st)) eqn:Ha.
    + now rewrite (capture_full _ _ Hb Ha).
    + now rewrite (capture_after _ _ Hb Ha).
  - now rewrite (capture_before _ _ Hb).
Qed.

Lemma reader_iter_events line st :
  forallb console_output (events_of (reader_iter line st)) = true.
Proof.
  destruct line as [raw|e|].
  - destruct (hsi_reply_fields raw) as [fields|] eqn:E.
    + rewrite (reader_iter_hsi_reply _ _ _ E). apply capture_events.
    + unfold hsi_reply_fields in E.
      destruct (decode_total raw) as [d Ed]. rewrite Ed in E.
      destruct d as [[[msg fields] tag]|]; [|now rewrite (reader_iter_blank _ _ Ed)].
      unfold reader_iter, try_except, reader_body.
      rewrite (bind_lift_ok _ raw) by reflexivity.
      rewrite (bind_lift_ok _ _ _ _ Ed). cbv beta iota.
      pose proof (is_hsi_reply_tame tag fields) as T.
      destruct (is_hsi_reply tag fields) as [[]|e|] eqn:E2; try discriminate.
      * rewrite (bind_lift_ok _ _ _ _ eq_refl). cbv beta iota.
        destruct (String.eqb tag "VNERR"); [|reflexivity].
        destruct (getitem_cases fields 1) as [[code Ec] | Ec].
        -- now rewrite (bind_lift_ok _ _ _ _ Ec).
        -- now rewrite (bind_lift_raise _ _ _ _ Ec).
      * rewrite (bind_lift_raise _ _ _ _ eq_refl). cbn in T. now rewrite T.
      * contradiction.
  - unfold reader_iter, try_except, reader_body.
    rewrite (bind_lift_raise _ _ _ _ eq_refl).
    destruct (is_Exception e); reflexivity.
  - reflexivity.
Qed.

(** X10.  The reader task only prints and warns: whatever it reads, it
    writes nothing to the transport, asks the operator nothing and never
    sleeps. *)
Theorem reader_only_prints reads st :
  forallb console_output (events_of (reader reads st)) = true /\
  writes (events_of (reader reads st)) = [].
Proof.
  assert (W : forall evs, forallb console_output evs = true -> writes evs = []).
  { induction evs as [|e evs IH]; [reflexivity|]. cbn [forallb].
    intros H. apply andb_true_iff in H as [He H].
    destruct e; cbn in He; try discriminate; cbn; auto. }
  assert (P : forallb console_output (events_of (reader reads st)) = true).
  { revert st. induction reads as [|line rest IH]; intros st.
    - reflexivity.
    - cbn [reader]. rewrite events_of_bind.
      pose proof (reader_iter_events line st) as H.
      destruct (result_of (reader_iter line st)); [|exact H..].
      rewrite forallb_app, H. apply IH. }
  split; [exact P | exact (W _ P)].
Qed.

(** ** Calibration sequencer: the two prompts *)

Lemma check_body_decides k keys :
  ~ invalid_reply k ->
  check_to_continue_body (k :: keys)
  = match gate_answer k with
    | Ok b => (Ok (Some b), keys, continue_dialogue k)
    | Raise e => (Raise e, keys, continue_dialogue k)
    | Blocked => (Blocked, keys, continue_dialogue k)
    end.
Proof.
  destruct k as [s| |]; cbn [invalid_reply gate_answer]; intros H;
    [|reflexivity..].
  unfold check_to_continue_body, try_except, bind, input, continue_dialogue.
  destruct (String.eqb_spec s "y") as [->|Ny]; [reflexivity|].
  destruct (String.eqb_spec s "n") as [->|Nn]; [reflexivity|].
  exfalso. apply H. split; assumption.
Qed.

Lemma check_loop_decides junk : forall n k rest,
  Forall invalid_reply junk -> ~ invalid_reply k ->
  (List.length junk < n)%nat ->
  loop n check_to_continue_body (junk ++ k :: rest)%list
  = (gate_answer k, rest, flat_map continue_dialogue (junk ++ [k])).
Proof.
  induction junk as [|j junk IH]; intros n k rest Hj Hk Hn.
  - destruct n as [|n]; [cbn in Hn; lia|].
    cbn [app flat_map]. rewrite app_nil_r.
    pose proof (check_body_decides k rest Hk) as B.
    destruct (gate_answer k) as [b|e|] eqn:G.
    + apply loop_stop, B.
    + apply loop_raise, B.
    + destruct k; discriminate.
  - destruct n as [|n]; [cbn in Hn; lia|].
    inversion Hj as [|? ? Hj1 Hj']; subst.
    cbn [app]. rewrite (loop_again _ _ _ _ _ (check_body_invalid j _ Hj1)).
    rewrite (IH n k rest Hj' Hk) by (cbn in Hn; lia).
    reflexivity.
Qed.

Lemma check_loop_blocks junk : forall n,
  Forall invalid_reply junk -> (List.length junk < n)%nat ->
  loop n check_to_continue_body junk
  = (Blocked, [], (flat_map continue_dialogue junk ++ [Prompt continue_prompt])%list).
Proof.
  induction junk as [|j junk IH]; intros n Hj Hn.
  - destruct n as [|n]; [cbn in Hn; lia|]. reflexivity.
  - destruct n as [|n]; [cbn in Hn; lia|].
    inversion Hj as [|? ? Hj1 Hj']; subst.
    rewrite (loop_again _ _ _ _ _ (check_body_invalid j _ Hj1)).
    rewrite (IH n Hj') by (cbn in Hn; lia).
    cbn [flat_map]. unfold result_of, state_of, events_of. cbn [fst snd].
    now rewrite <- app_assoc.
Qed.

(** X11.  The continue prompt is asked again after every reply other than
    "y" and "n".  It then ends on the first other key: [True] on "y",
    [False] on "n" and on Ctrl-C, [EOFError] on the end of input; the keys
    after that one are left for the next prompt.  With only invalid
    replies it waits for more. *)
Theorem check_to_continue_decides junk :
  Forall invalid_reply junk ->
  (forall k rest, ~ invalid_reply k ->
     check_to_continue (junk ++ k :: rest)%list
     = (gate_answer k, rest, flat_map continue_dialogue (junk ++ [k]))) /\
  check_to_continue junk
  = (Blocked, [], (flat_map continue_dialogue junk ++ [Prompt continue_prompt])%list).
Proof.
  intros Hj. split.
  - intros k rest Hk. unfold check_to_continue, input_loop.
    apply check_loop_decides; [assumption..|].
    rewrite length_app. cbn. lia.
  - unfold check_to_continue, input_loop.
    apply check_loop_blocks; [assumption | lia].
Qed.

Lemma check_to_continue_decides_witness :
  check_to_continue ([Typed "Y"; Typed "yes"] ++ Typed "y" :: [Typed "3"])%list
  = (Ok true, [Typed "3"],
     flat_map continue_dialogue ([Typed "Y"; Typed "yes"] ++ [Typed "y"])) /\
  check_to_continue ([Typed " n"] ++ CtrlD :: [])%list
  = (Raise EOFError, [], flat_map continue_dialogue ([Typed " n"] ++ [CtrlD])).
Proof.
  split.
  - apply (proj1 (check_to_continue_decides [Typed "Y"; Typed "yes"]
                    ltac:(repeat constructor; discriminate))
             (Typed "y") [Typed "3"]).
    intros [H _]. now apply H.
  - apply (proj1 (check_to_continue_decides [Typed " n"]
                    ltac:(repeat constructor; discriminate))
             CtrlD []).
    intros H. exact H.
Defined.

Lemma conv_rate_body_noise k keys :
  rate_noise k -> conv_rate_body (k :: keys) = (Ok None, keys, rate_dialogue k).
Proof.
  intros [-> | [s [x [-> [Hx Hr]]]]].
  - apply conv_rate_body_interrupt.
  - apply (conv_rate_body_out_of_range _ _ _ Hx Hr).
Qed.

Lemma conv_rate_body_accepts s frame keys :
  accepted_rate s frame ->
  conv_rate_body (Typed s :: keys)
  = (Ok (Some tt), keys, [Prompt rate_prompt; Write frame]).
Proof.
  intros [x [Hx [Hle [Hge Hf]]]].
  apply (conv_rate_body_in_range _ _ _ _ Hx Hle Hge Hf).
Qed.

Lemma rate_loop noise : forall n s frame rest,
  Forall rate_noise noise -> accepted_rate s frame ->
  (List.length noise < n)%nat ->
  loop n conv_rate_body (noise ++ Typed s :: rest)%list
  = (Ok tt, rest,
     (flat_map rate_dialogue noise ++ [Prompt rate_prompt; Write frame])%list).
Proof.
  induction noise as [|k noise IH]; intros n s frame rest Hn Ha Hl.
  - destruct n as [|n]; [cbn in Hl; lia|].
    apply loop_stop, conv_rate_body_accepts, Ha.
  - destruct n as [|n]; [cbn in Hl; lia|].
    inversion Hn as [|? ? Hk Hn']; subst.
    cbn [app]. rewrite (loop_again _ _ _ _ _ (conv_rate_body_noise k _ Hk)).
    rewrite (IH n s frame rest Hn' Ha) by (cbn in Hl; lia).
    cbn [flat_map]. unfold result_of, state_of, events_of. cbn [fst snd].
    now rewrite <- app_assoc.
Qed.

Lemma device_actions_app ev1 ev2 :
  device_actions (ev1 ++ ev2) = (device_actions ev1 ++ device_actions ev2)%list.
Proof. apply filter_app. Qed.

Lemma device_actions_rate_dialogue noise :
  device_actions (flat_map rate_dialogue noise) = [].
Proof.
  induction noise as [|k noise IH]; [reflexivity|].
  cbn [flat_map]. rewrite device_actions_app, IH, app_nil_r.
  destruct k; reflexivity.
Qed.

Lemma device_actions_continue_dialogue keys :
  device_actions (flat_map continue_dialogue keys) = [].
Proof.
  induction keys as [|k keys IH]; [reflexivity|].
  cbn [flat_map]. rewrite device_actions_app, IH, app_nil_r.
  destruct k as [s| |]; cbn; [destruct (_ || _)|..]; reflexivity.
Qed.

(** X12.  Neither Ctrl-C nor a number out of range ends the
    convergence-rate prompt: it comes again after each, and the first
    reply in range ends it, with its start command as the one thing
    written. *)
Theorem rate_prompt_outlasts_interruptions noise s frame rest :
  Forall rate_noise noise -> accepted_rate s frame ->
  ask_conv_rate (noise ++ Typed s :: rest)%list
  = (Ok tt, rest,
     (flat_map rate_dialogue noise ++ [Prompt rate_prompt; Write frame])%list) /\
  device_actions (events_of (ask_conv_rate (noise ++ Typed s :: rest)%list))
  = [Write frame].
Proof.
  intros Hn Ha.
  assert (E : ask_conv_rate (noise ++ Typed s :: rest)%list
              = (Ok tt, rest,
                 (flat_map rate_dialogue noise
                  ++ [Prompt rate_prompt; Write frame])%list)).
  { unfold ask_conv_rate, input_loop. apply rate_loop; [assumption..|].
    rewrite length_app. cbn. lia. }
  split; [exact E|]. rewrite E. unfold events_of. cbn [snd].
  now rewrite device_actions_app, device_actions_rate_dialogue.
Qed.

Lemma sample_rate_accepted :
  accepted_rate "2.5" (list_byte_of_string ("$VNWRG,44,1,1,2.5*73" ++ CRLF)).
Proof.
  exists (FFinite 5629499534213120 (-51)). repeat split; vm_compute; reflexivity.
Qed.

Lemma out_of_range_noise s x :
  py_float s = Ok x -> float_le_int x 5 && float_ge_int x 1 = false ->
  rate_noise (Typed s).
Proof. intros H R. right. exists s, x. auto. Qed.

Lemma sample_rate_noise :
  Forall rate_noise [CtrlC; Typed "0"; Typed "nan"; CtrlC; Typed "1e3"].
Proof.
  apply Forall_cons; [left; reflexivity|].
  apply Forall_cons; [apply (out_of_range_noise "0" (FFinite 0 0)); reflexivity|].
  apply Forall_cons; [apply (out_of_range_noise "nan" FNaN); reflexivity|].
  apply Forall_cons; [left; reflexivity|].
  apply Forall_cons; [|apply Forall_nil].
  eapply out_of_range_noise; vm_compute; reflexivity.
Qed.

Lemma rate_prompt_outlasts_interruptions_witness :
  device_actions
    (events_of (ask_conv_rate ([CtrlC; Typed "0"; Typed "nan"; CtrlC; Typed "1e3"]
                               ++ Typed "2.5" :: [Typed "y"])%list))
  = [Write (list_byte_of_string ("$VNWRG,44,1,1,2.5*73" ++ CRLF))].
Proof.
  apply (rate_prompt_outlasts_interruptions _ "2.5" _ [Typed "y"]
           sample_rate_noise sample_rate_accepted).
Defined.

(** ** Calibration sequencer: what reaches the device *)

Lemma device_actions_bind {St A B} (c : M St A) (k : A -> M St B) s :
  device_actions (events_of (bind c k s))
  = (device_actions (events_of (c s))
     ++ match result_of (c s) with
        | Ok a => device_actions (events_of (k a (state_of (c s))))
        | _ => []
        end)%list.
Proof.
  rewrite events_of_bind.
  destruct (result_of (c s)); [apply device_actions_app | now rewrite app_nil_r..].
Qed.

Lemma console_output_quiet evs :
  forallb console_output evs = true -> device_actions evs = [].
Proof.
  induction evs as [|e evs IH]; [reflexivity|]. cbn [forallb].
  intros H. apply andb_true_iff in H as [He H].
  destruct e; cbn in He; try discriminate; cbn; auto.
Qed.

(** The display never touches the keys nor the device, whatever the
    snapshot. *)
Lemma show_hsi_quiet s keys :
  state_of (show_hsi s keys) = keys /\
  device_actions (events_of (show_hsi s keys)) = [] /\
  (result_of (show_hsi s keys) = Ok tt \/
   result_of (show_hsi s keys) = Raise IndexError).
Proof.
  destruct s as [C B].
  do 9 (destruct C as [|? C]; [repeat split; auto|]).
  do 3 (destruct B as [|? B]; [repeat split; auto|]).
  repeat split; auto.
Qed.




Lemma bind_ext {St A B} (c : M St A) (k1 k2 : A -> M St B) :
  (forall a s, k1 a s = k2 a s) -> forall s, bind c k1 s = bind c k2 s.
Proof.
  intros H s. unfold bind. destruct (c s) as [[[a|e|] s1] ev1]; try reflexivity.
  now rewrite H.
Qed.

Lemma saving_stage_exact s :
  (cont <- check_to_continue ;;
   if negb cont then emit (Print "Stopping Before Saving the Results!")
   else
     reset_async_output <- lift (write_full_vn_message "VNWRG,7,40,1") ;;
     emit (Write reset_async_output) ;;;
     emit (Sleep 1) ;;;
     save_settings_msg <- lift (write_full_vn_message "VNWNV") ;;
     emit (Write save_settings_msg) ;;;
     emit (Print "HSI process has completed and saved. Have a good day and good luck!")) s
  = saving_stage s.
Proof.
  unfold saving_stage. apply bind_ext. intros cont s'.
  destruct (negb cont); [reflexivity|].
  rewrite (bind_lift_ok _ restore_frame) by reflexivity.
  apply bind_ext. intros _ s1. apply bind_ext. intros _ s2.
  rewrite (bind_lift_ok _ save_frame) by reflexivity. reflexivity.
Qed.

Lemma run_by_stages before_seen after_seen keys :
  run_hsi_calibration before_seen after_seen keys
  = (result_of (gate_stage before_seen after_seen keys),
     state_of (gate_stage before_seen after_seen keys),
     (opening_events ++ events_of (gate_stage before_seen after_seen keys))%list).
Proof.
  unfold run_hsi_calibration.
  rewrite (bind_eq _ _ _ tt _ [Print "Turning Serial Port Async Messages Off"])
    by reflexivity.
  rewrite (bind_lift_ok _ (list_byte_of_string ("$VNWRG,07,0,1*70" ++ CRLF)))
    by reflexivity.
  rewrite (bind_eq _ _ _ tt _ [Write _]) by reflexivity.
  rewrite (bind_eq _ _ _ tt _ [Print _]) by reflexivity.
  rewrite (bind_lift_ok _ read_frame) by reflexivity.
  rewrite (bind_eq _ _ _ tt _ [Write _]) by reflexivity.
  match goal with |- context [result_of (?c keys)] =>
    replace (c keys) with (gate_stage before_seen after_seen keys)
  end.
  - unfold result_of, state_of, events_of. cbn [fst snd]. reflexivity.
  - unfold gate_stage. apply bind_ext. intros _ s1. apply bind_ext. intros cont s2.
    destruct (negb cont); [reflexivity|].
    unfold estimation_stage.
    do 8 (apply bind_ext; intros ? ?).
    rewrite (bind_lift_ok _ stop_frame) by reflexivity.
    do 2 (apply bind_ext; intros ? ?).
    symmetry. apply saving_stage_exact.
Qed.











(** The stages on the scripts that carry the run through them. *)
Lemma show_hsi_showable_quiet s keys :
  showable s ->
  exists evs, show_hsi s keys = (Ok tt, keys, evs) /\ device_actions evs = [].
Proof.
  intros H. destruct (show_hsi_showable s keys H) as [evs [E _]].
  exists evs. split; [exact E|].
  pose proof (proj1 (proj2 (show_hsi_quiet s keys))) as Q.
  now rewrite E in Q.
Qed.

Lemma gate_stage_passed before_seen after_seen junk keys :
  showable before_seen -> Forall invalid_reply junk ->
  exists evs,
    gate_stage before_seen after_seen (junk ++ Typed "y" :: keys)%list
    = (result_of (estimation_stage after_seen keys),
       state_of (estimation_stage after_seen keys),
       (evs ++ events_of (estimation_stage after_seen keys))%list) /\
    device_actions evs = [].
Proof.
  intros Hs Hj.
  destruct (show_hsi_showable_quiet before_seen (junk ++ Typed "y" :: keys)%list Hs)
    as [ev1 [E1 Q1]].
  assert (E2 := proj1 (check_to_continue_decides junk Hj) (Typed "y") keys
                  ltac:(intros [H _]; now apply H)).
  cbn [gate_answer String.eqb Ascii.eqb Bool.eqb] in E2.
  exists (ev1 ++ flat_map continue_dialogue (junk ++ [Typed "y"]))%list. split.
  - unfold gate_stage.
    rewrite (bind_eq _ _ _ _ _ _ E1), (bind_eq _ _ _ _ _ _ E2).
    cbn [negb]. unfold result_of, state_of, events_of. cbn [fst snd].
    now rewrite app_assoc.
  - now rewrite device_actions_app, Q1, device_actions_continue_dialogue.
Qed.

Lemma estimation_stage_done after_seen noise s frame keys :
  showable after_seen -> Forall rate_noise noise -> accepted_rate s frame ->
  exists evs,
    estimation_stage after_seen (noise ++ Typed s :: keys)%list
    = (result_of (saving_stage keys), state_of (saving_stage keys),
       (evs ++ events_of (saving_stage keys))%list) /\
    device_actions evs
    = [Write frame; Sleep 120; Write read_frame; Write stop_frame].
Proof.
  intros Hs Hn Ha.
  destruct (show_hsi_showable_quiet after_seen keys Hs) as [ev1 [E1 Q1]].
  pose proof (proj1 (rate_prompt_outlasts_interruptions noise s frame keys Hn Ha))
    as E2.
  exists ([Print "Moving on to HSI Estiamtion Step"]
          ++ (flat_map rate_dialogue noise ++ [Prompt rate_prompt; Write frame])
          ++ [Print "Waiting 2min for the HSI estimation process to complete.";
              Print "While this is running, please rotate the vehicle in all axes, trying to go through all positions";
              Sleep 120; Write read_frame]
          ++ ev1
          ++ [Print "Stopping the estimation process and applying changes to the measurements.";
              Write stop_frame; Print "Moving on to save the register."])%list.
  split.
  - unfold estimation_stage.
    rewrite (bind_eq _ _ _ tt _ [Print _]) by reflexivity.
    rewrite (bind_eq _ _ _ _ _ _ E2).
    rewrite (bind_eq _ _ _ tt _ [Print _]) by reflexivity.
    rewrite (bind_eq _ _ _ tt _ [Print _]) by reflexivity.
    rewrite (bind_eq _ _ _ tt _ [Sleep _]) by reflexivity.
    rewrite (bind_eq _ _ _ tt _ [Write _]) by reflexivity.
    rewrite (bind_eq _ _ _ _ _ _ E1).
    rewrite (bind_eq _ _ _ tt _ [Print _]) by reflexivity.
    rewrite (bind_eq _ _ _ tt _ [Write _]) by reflexivity.
    rewrite (bind_eq _ _ _ tt _ [Print _]) by reflexivity.
    unfold result_of, state_of, events_of. cbn [fst snd].
    repeat (rewrite <- ?app_assoc; cbn [app]). reflexivity.
  - repeat rewrite device_actions_app.
    rewrite Q1, device_actions_rate_dialogue. reflexivity.
Qed.

Lemma saving_stage_decided junk k rest :
  Forall invalid_reply junk -> k = Typed "y" \/ declines k ->
  result_of (saving_stage (junk ++ k :: rest)%list) = Ok tt /\
  state_of (saving_stage (junk ++ k :: rest)%list) = rest /\
  device_actions (events_of (saving_stage (junk ++ k :: rest)%list))
  = match k with
    | Typed "y" => [Write restore_frame; Sleep 1; Write save_frame]
    | _ => []
    end.
Proof.
  intros Hj Hk.
  assert (Nk : ~ invalid_reply k).
  { destruct Hk as [-> | [-> | ->]]; cbn; try tauto; intros [H1 H2]; congruence. }
  pose proof (proj1 (check_to_continue_decides junk Hj) k rest Nk) as E.
  unfold saving_stage.
  destruct Hk as [-> | [-> | ->]];
    cbn [gate_answer String.eqb Ascii.eqb Bool.eqb] in E;
    rewrite (bind_eq _ _ _ _ _ _ E); cbn [negb];
    unfold result_of, state_of, events_of; cbn [fst snd];
    rewrite device_actions_app, device_actions_continue_dialogue;
    repeat split; reflexivity.
Qed.

(** X14.  A complete run: "y" at the first prompt, a rate in range, "y" at
    the second prompt, with any invalid replies, interrupts and refused
    rates on the way, returns normally, leaves the keys after the last
    "y" and sends the whole schedule, no more. *)
Theorem complete_run before_seen after_seen junk1 noise s frame junk2 rest :
  showable before_seen -> showable after_seen ->
  Forall invalid_reply junk1 -> Forall rate_noise noise ->
  accepted_rate s frame -> Forall invalid_reply junk2 ->
  let run := run_hsi_calibration before_seen after_seen
               (junk1 ++ Typed "y" :: noise ++ Typed s
                :: junk2 ++ Typed "y" :: rest)%list in
  result_of run = Ok tt /\ state_of run = rest /\
  device_actions (events_of run) = full_schedule frame.
Proof.
  intros Hb Ha H1 Hn Hs H2 run. unfold run. rewrite run_by_stages.
  destruct (gate_stage_passed before_seen after_seen junk1
              (noise ++ Typed s :: junk2 ++ Typed "y" :: rest)%list Hb H1)
    as [ev1 [E1 Q1]].
  destruct (estimation_stage_done after_seen noise s frame
              (junk2 ++ Typed "y" :: rest)%list Ha Hn Hs) as [ev2 [E2 Q2]].
  destruct (saving_stage_decided junk2 (Typed "y") rest H2 (or_introl eq_refl))
    as [R3 [S3 Q3]].
  rewrite E1, E2. unfold result_of, state_of, events_of in *.
  cbn [fst snd] in *.
  split; [exact R3|]. split; [exact S3|].
  rewrite !device_actions_app, Q1, Q2, Q3. reflexivity.
Qed.

(** X15.  Declining at the second prompt ("n" or Ctrl-C) ends the run
    normally after the estimation has been stopped: the commands that
    restore the periodic output and save the settings are not sent. *)
Theorem declining_to_save before_seen after_seen junk1 noise s frame junk2 stop rest :
  showable before_seen -> showable after_seen ->
  Forall invalid_reply junk1 -> Forall rate_noise noise ->
  accepted_rate s frame -> Forall invalid_reply junk2 -> declines stop ->
  let run := run_hsi_calibration before_seen after_seen
               (junk1 ++ Typed "y" :: noise ++ Typed s
                :: junk2 ++ stop :: rest)%list in
  result_of run = Ok tt /\ state_of run = rest /\
  device_actions (events_of run)
  = [Write (list_byte_of_string ("$VNWRG,07,0,1*70" ++ CRLF)); Write read_frame;
     Write frame; Sleep 120; Write read_frame; Write stop_frame].
Proof.
  intros Hb Ha H1 Hn Hs H2 Hd run. unfold run. rewrite run_by_stages.
  destruct (gate_stage_passed before_seen after_seen junk1
              (noise ++ Typed s :: junk2 ++ stop :: rest)%list Hb H1)
    as [ev1 [E1 Q1]].
  destruct (estimation_stage_done after_seen noise s frame
              (junk2 ++ stop :: rest)%list Ha Hn Hs) as [ev2 [E2 Q2]].
  destruct (saving_stage_decided junk2 stop rest H2 (or_intror Hd))
    as [R3 [S3 Q3]].
  rewrite E1, E2. unfold result_of, state_of, events_of in *.
  cbn [fst snd] in *.
  split; [exact R3|]. split; [exact S3|].
  rewrite !device_actions_app, Q1, Q2, Q3.
  destruct Hd as [-> | ->]; reflexivity.
Qed.

Lemma samples_showable : showable sample_hsi_1 /\ showable sample_hsi_2.
Proof. split; right; cbn; lia. Qed.

Lemma complete_run_witness :
  let run := run_hsi_calibration sample_hsi_1 sample_hsi_2
               ([Typed "ok"] ++ Typed "y"
                :: [CtrlC; Typed "0"; Typed "nan"; CtrlC; Typed "1e3"] ++ Typed "2.5"
                :: [Typed "Y"] ++ Typed "y" :: [])%list in
  result_of run = Ok tt /\ state_of run = [] /\
  device_actions (events_of run)
  = full_schedule (list_byte_of_string ("$VNWRG,44,1,1,2.5*73" ++ CRLF)).
Proof.
  apply complete_run.
  - apply samples_showable.
  - apply samples_showable.
  - repeat constructor; discriminate.
  - apply sample_rate_noise.
  - apply sample_rate_accepted.
  - repeat constructor; discriminate.
Defined.

Lemma declining_to_save_witness :
  let run := run_hsi_calibration sample_hsi_1 sample_hsi_2
               ([] ++ Typed "y" :: [] ++ Typed "2.5"
                :: [Typed "no"] ++ Typed "n" :: [Typed "y"])%list in
  result_of run = Ok tt /\ state_of run = [Typed "y"] /\
  device_actions (events_of run)
  = [Write (list_byte_of_string ("$VNWRG,07,0,1*70" ++ CRLF)); Write read_frame;
     Write (list_byte_of_string ("$VNWRG,44,1,1,2.5*73" ++ CRLF));
     Sleep 120; Write read_frame; Write stop_frame].
Proof.
  apply declining_to_save.
  - apply samples_showable.
  - apply samples_showable.
  - constructor.
  - constructor.
  - apply sample_rate_accepted.
  - repeat constructor; discriminate.
  - left. reflexivity.
Defined.

Lemma bind_raise_eq {St A B} (c : M St A) (k : A -> M St B) s e s1 ev1 :
  c s = (Raise e, s1, ev1) -> bind c k s = (Raise e, s1, ev1).
Proof. intros H. unfold bind. now rewrite H. Qed.

Lemma conv_rate_body_end_of_input keys :
  conv_rate_body (CtrlD :: keys) = (Raise EOFError, keys, [Prompt rate_prompt]).
Proof. reflexivity. Qed.

Lemma rate_loop_end_of_input noise : forall n rest,
  Forall rate_noise noise -> (List.length noise < n)%nat ->
  loop n conv_rate_body (noise ++ CtrlD :: rest)%list
  = (Raise EOFError, rest,
     (flat_map rate_dialogue noise ++ [Prompt rate_prompt])%list).
Proof.
  induction noise as [|k noise IH]; intros n rest Hn Hl.
  - destruct n as [|n]; [cbn in Hl; lia|].
    apply loop_raise, conv_rate_body_end_of_input.
  - destruct n as [|n]; [cbn in Hl; lia|].
    inversion Hn as [|? ? Hk Hn']; subst.
    cbn [app]. rewrite (loop_again _ _ _ _ _ (conv_rate_body_noise k _ Hk)).
    rewrite (IH n rest Hn') by (cbn in Hl; lia).
    cbn [flat_map]. unfold result_of, state_of, events_of. cbn [fst snd].
    now rewrite <- app_assoc.
Qed.

(** X16.  The end of the operator's input (Ctrl-D) is caught nowhere: at
    the first continue prompt, and at the convergence-rate prompt, it ends
    the run with [EOFError], with nothing sent after the commands already
    out. *)
Theorem end_of_input_aborts_the_run before_seen after_seen junk noise rest :
  showable before_seen -> Forall invalid_reply junk -> Forall rate_noise noise ->
  (let run := run_hsi_calibration before_seen after_seen
                (junk ++ CtrlD :: rest)%list in
   result_of run = Raise EOFError /\ state_of run = rest /\
   device_actions (events_of run)
   = [Write (list_byte_of_string ("$VNWRG,07,0,1*70" ++ CRLF)); Write read_frame]) /\
  (let run := run_hsi_calibration before_seen after_seen
                (junk ++ Typed "y" :: noise ++ CtrlD :: rest)%list in
   result_of run = Raise EOFError /\ state_of run = rest /\
   device_actions (events_of run)
   = [Write (list_byte_of_string ("$VNWRG,07,0,1*70" ++ CRLF)); Write read_frame]).
Proof.
  intros Hb Hj Hn. split.
  - intros run. unfold run. rewrite run_by_stages.
    destruct (show_hsi_showable_quiet before_seen (junk ++ CtrlD :: rest)%list Hb)
      as [ev1 [E1 Q1]].
    pose proof (proj1 (check_to_continue_decides junk Hj) CtrlD rest
                  ltac:(intros H; exact H)) as E2.
    cbn [gate_answer] in E2.
    assert (G : gate_stage before_seen after_seen (junk ++ CtrlD :: rest)%list
                = (Raise EOFError, rest,
                   (ev1 ++ flat_map continue_dialogue (junk ++ [CtrlD]))%list)).
    { unfold gate_stage. rewrite (bind_eq _ _ _ _ _ _ E1).
      rewrite (bind_raise_eq _ _ _ _ _ _ E2). reflexivity. }
    rewrite G. unfold result_of, state_of, events_of. cbn [fst snd].
    repeat split.
    now rewrite !device_actions_app, Q1, device_actions_continue_dialogue.
  - intros run. unfold run. rewrite run_by_stages.
    destruct (gate_stage_passed before_seen after_seen junk
                (noise ++ CtrlD :: rest)%list Hb Hj) as [ev1 [E1 Q1]].
    assert (E2 : ask_conv_rate (noise ++ CtrlD :: rest)%list
                 = (Raise EOFError, rest,
                    (flat_map rate_dialogue noise ++ [Prompt rate_prompt])%list)).
    { unfold ask_conv_rate, input_loop. apply rate_loop_end_of_input; [exact Hn|].
      rewrite length_app. cbn. lia. }
    assert (G : estimation_stage after_seen (noise ++ CtrlD :: rest)%list
                = (Raise EOFError, rest,
                   ([Print "Moving on to HSI Estiamtion Step"]
                    ++ flat_map rate_dialogue noise ++ [Prompt rate_prompt])%list)).
    { unfold estimation_stage.
      rewrite (bind_eq _ _ _ tt _ [Print _]) by reflexivity.
      rewrite (bind_raise_eq _ _ _ _ _ _ E2). reflexivity. }
    rewrite E1, G. unfold result_of, state_of, events_of. cbn [fst snd].
    repeat split.
    rewrite !device_actions_app, Q1, device_actions_rate_dialogue. reflexivity.
Qed.

Lemma end_of_input_aborts_the_run_witness :
  result_of (run_hsi_calibration sample_hsi_1 sample_hsi_2
               ([Typed "what"] ++ CtrlD :: [Typed "y"])%list) = Raise EOFError /\
  result_of (run_hsi_calibration sample_hsi_1 sample_hsi_2
               ([Typed "what"] ++ Typed "y" :: [CtrlC] ++ CtrlD :: [])%list)
  = Raise EOFError.
Proof.
  destruct (end_of_input_aborts_the_run sample_hsi_1 sample_hsi_2
              [Typed "what"] [CtrlC] [Typed "y"]) as [[R1 _] _];
    [apply samples_showable | repeat constructor; discriminate
     | repeat constructor | ].
  destruct (end_of_input_aborts_the_run sample_hsi_1 sample_hsi_2
              [Typed "what"] [CtrlC] []) as [_ [R2 _]];
    [apply samples_showable | repeat constructor; discriminate
     | repeat constructor | ].
  split; [exact R1 | exact R2].
Defined.

Lemma show_hsi_unshowable s keys :
  populated s = true -> ~ showable s ->
  result_of (show_hsi s keys) = Raise IndexError.
Proof.
  destruct s as [C B]. unfold populated, showable. cbn [hsi_C hsi_B].
  intros Hp Hn.
  destruct C as [|? C]; [discriminate|].
  do 8 (destruct C as [|? C]; [reflexivity|]).
  do 3 (destruct B as [|? B]; [reflexivity|]).
  exfalso. apply Hn. right. cbn. lia.
Qed.

Lemma snapshot_of_unshowable parsed_msg :
  (3 <= List.length parsed_msg <= 13)%nat ->
  populated (snapshot_of parsed_msg) = true /\ ~ showable (snapshot_of parsed_msg).
Proof.
  intros H. split; [apply snapshot_of_populated; lia|].
  unfold showable, snapshot_of, slice. cbn [hsi_C hsi_B].
  rewrite !length_firstn, !length_skipn.
  intros [E | [_ LB]]; [|lia].
  apply (f_equal (@List.length string)) in E.
  rewrite length_firstn, length_skipn in E.
  change (List.length (@nil string)) with 0%nat in E. lia.
Qed.

(** X17.  A register-47 acknowledgment that is cut short, with one to
    eleven data fields instead of twelve, is stored all the same, and the
    sequencer then fails on it: shown that "before" snapshot, the run ends
    with [IndexError] while printing it, before any prompt, with only the
    two opening commands sent. *)
Theorem truncated_reply_crashes_the_run raw parsed_msg after_seen keys :
  hsi_reply_fields raw = Some parsed_msg ->
  (3 <= List.length parsed_msg <= 13)%nat ->
  let st := state_of (reader_iter (Ok raw) init) in
  let run := run_hsi_calibration (hsi_before st) after_seen keys in
  hsi_before st = snapshot_of parsed_msg /\
  result_of run = Raise IndexError /\ state_of run = keys /\
  device_actions (events_of run)
  = [Write (list_byte_of_string ("$VNWRG,07,0,1*70" ++ CRLF)); Write read_frame].
Proof.
  intros E L st run.
  assert (Hst : hsi_before st = snapshot_of parsed_msg).
  { unfold st. rewrite (reader_iter_hsi_reply _ _ _ E).
    now rewrite capture_before. }
  split; [exact Hst|]. unfold run. rewrite Hst, run_by_stages.
  destruct (snapshot_of_unshowable parsed_msg L) as [Hp Hn].
  pose proof (show_hsi_unshowable _ keys Hp Hn) as R.
  destruct (show_hsi_quiet (snapshot_of parsed_msg) keys) as [Sk [Sq _]].
  set (g := gate_stage (snapshot_of parsed_msg) after_seen keys).
  assert (Rg : result_of g = Raise IndexError)
    by (unfold g, gate_stage; rewrite result_of_bind, R; reflexivity).
  assert (Sg : state_of g = keys)
    by (unfold g, gate_stage; rewrite state_of_bind, R; exact Sk).
  assert (Dg : device_actions (events_of g) = [])
    by (unfold g, gate_stage; rewrite device_actions_bind, Sq, R; reflexivity).
  clearbody g. destruct g as [[r s] ev].
  unfold result_of, state_of, events_of in *. cbn [fst snd] in *.
  split; [exact Rg|]. split; [exact Sg|].
  rewrite device_actions_app, Dg. reflexivity.
Qed.

Lemma truncated_reply_crashes_the_run_witness :
  result_of
    (run_hsi_calibration
       (hsi_before
          (state_of (reader_iter
                       (Ok (list_byte_of_string
                              "$VNRRG,47,1,2,3,4,5,6,7,8,9,0.1,0.2*5E")) init)))
       sample_hsi_2 [Typed "y"])
  = Raise IndexError.
Proof.
  refine (proj1 (proj2 (truncated_reply_crashes_the_run
            (list_byte_of_string "$VNRRG,47,1,2,3,4,5,6,7,8,9,0.1,0.2*5E")
            ["$VNRRG"; "47"; "1"; "2"; "3"; "4"; "5"; "6"; "7"; "8"; "9";
             "0.1"; "0.2"]
            sample_hsi_2 [Typed "y"] _ _))).
  - reflexivity.
  - cbn. lia.
Defined.

(** ** Lifecycle of the reader thread *)

Lemma nth_set_alive t b l u :
  nth u (set_alive t b l) false
  = if (u =? t)%nat && (t <? List.length l)%nat then b else nth u l false.
Proof.
  revert t u. induction l as [|x l IH]; intros t u.
  - destruct t, u; cbn; rewrite ?andb_false_r; reflexivity.
  - destruct t as [|t], u as [|u]; cbn [set_alive nth]; try reflexivity.
    rewrite IH. reflexivity.
Qed.

Lemma nth_app_false (l : list bool) u :
  nth u (l ++ [false]) false = nth u l false.
Proof.
  revert u. induction l as [|x l IH]; intros [|u]; cbn; auto.
  destruct u; reflexivity.
Qed.

(** What [start_reading_threads] leaves, case by case. *)
Lemma start_when_active spawn self :
  port_active self = true ->
  start_reading_threads spawn self = (Ok tt, self, []).
Proof.
  intros H. unfold start_reading_threads, try_except, bind, get. cbn.
  rewrite H. reflexivity.
Qed.

Lemma start_keeps_thread spawn self t :
  port_active self = false -> port_thread self = Some t ->
  is_alive self t = true ->
  start_reading_threads spawn self = (Ok tt, set_port_active true self, []).
Proof.
  destruct self as [a pt th]. unfold is_alive. cbn [port_active port_thread threads].
  intros -> -> Hl.
  unfold start_reading_threads, try_except, bind, get, modify, is_alive,
    set_port_active.
  cbn [negb port_active port_thread threads]. rewrite Hl. reflexivity.
Qed.

Lemma set_alive_last (l : list bool) :
  set_alive (List.length l) true (l ++ [false]) = (l ++ [true])%list.
Proof. induction l as [|x l IH]; cbn; [reflexivity | now rewrite IH]. Qed.

Lemma start_new_thread spawn self :
  port_active self = false ->
  match port_thread self with
  | None => True
  | Some t => is_alive self t = false
  end ->
  state_of (start_reading_threads spawn self)
  = {| port_active := true;
       port_thread := Some (List.length (threads self));
       threads := (threads self
                   ++ [match spawn with Ok _ => true | _ => false end])%list |}.
Proof.
  destruct self as [a pt th]. unfold is_alive. cbn [port_active port_thread threads].
  intros -> Ht.
  assert (C : match pt with
              | None => true
              | Some t => negb (nth t th false)
              end = true)
    by (destruct pt; [now rewrite Ht | reflexivity]).
  unfold start_reading_threads, try_except, bind, get, modify, is_alive,
    set_port_active, new_thread, mark_thread, lift, emit, state_of.
  cbn [negb port_active port_thread threads]. rewrite C.
  destruct spawn as [[]|e|]; cbn [fst snd port_active port_thread threads].
  - now rewrite set_alive_last.
  - destruct (is_Exception e); reflexivity.
  - reflexivity.
Qed.

Lemma start_activates spawn self :
  port_active (state_of (start_reading_threads spawn self)) = true.
Proof.
  destruct (port_active self) eqn:Ha.
  - now rewrite (start_when_active _ _ Ha).
  - destruct (port_thread self) as [t|] eqn:Ht.
    + destruct (is_alive self t) eqn:Hl.
      * now rewrite (start_keeps_thread _ _ _ Ha Ht Hl).
      * rewrite start_new_thread; [reflexivity | exact Ha | now rewrite Ht].
    + rewrite start_new_thread; [reflexivity | exact Ha | now rewrite Ht].
Qed.

Lemma stop_state ends_in_time self :
  state_of (stop_reading_threads ends_in_time self)
  = if port_active self then
      match port_thread self with
      | Some t =>
          if is_alive self t && ends_in_time
          then thread_exit t (set_port_active false self)
          else set_port_active false self
      | None => set_port_active false self
      end
    else self.
Proof.
  destruct self as [a pt th].
  unfold stop_reading_threads, bind, get, modify, is_alive, set_port_active,
    state_of.
  cbn [port_active port_thread threads].
  destruct a; [|reflexivity]. cbn [fst snd port_active port_thread threads].
  destruct pt as [t|]; [|reflexivity].
  destruct (nth t th false), ends_in_time; reflexivity.
Qed.

Lemma one_reader_exit t self : one_reader self -> one_reader (thread_exit t self).
Proof.
  intros H u. unfold is_alive, thread_exit, mark_thread. cbn [threads port_thread].
  rewrite nth_set_alive.
  destruct ((u =? t)%nat && (t <? List.length (threads self))%nat);
    [discriminate | apply H].
Qed.

Lemma one_reader_act a self : one_reader self -> one_reader (act a self).
Proof.
  intros H. destruct a as [spawn|ends_in_time|t]; cbn [act].
  - destruct (port_active self) eqn:Ha.
    + now rewrite (start_when_active _ _ Ha).
    + assert (New : match port_thread self with
                    | None => True
                    | Some t => is_alive self t = false
                    end ->
                    one_reader (state_of (start_reading_threads spawn self))).
      { intros Ht. rewrite (start_new_thread _ _ Ha Ht).
        intros u. unfold is_alive. cbn [threads port_thread]. intros Hu.
        assert (Dead : forall v, nth v (threads self) false = false).
        { intros v. destruct (nth v (threads self) false) eqn:Hv; [|reflexivity].
          pose proof (H v Hv) as P. rewrite P in Ht.
          unfold is_alive in Ht. congruence. }
        destruct (Nat.lt_ge_cases u (List.length (threads self))) as [L|L].
        - rewrite app_nth1, Dead in Hu by exact L. discriminate.
        - destruct (Nat.eq_dec u (List.length (threads self))) as [->|N];
            [reflexivity|].
          rewrite nth_overflow in Hu; [discriminate|].
          rewrite length_app. cbn. lia. }
      destruct (port_thread self) as [t|] eqn:Ht.
      * destruct (is_alive self t) eqn:Hl.
        -- rewrite (start_keeps_thread _ _ _ Ha Ht Hl). exact H.
        -- apply New. reflexivity.
      * apply New. exact I.
  - rewrite stop_state. destruct (port_active self); [|exact H].
    destruct (port_thread self) as [t|] eqn:Ht; [|exact H].
    destruct (is_alive self t && ends_in_time); [|exact H].
    apply one_reader_exit. exact H.
  - apply one_reader_exit, H.
Qed.

(** X18.  Whatever starts, stops and thread exits follow one another, and
    whether or not threads start or end in time, at most one reader thread
    is alive, and it is the one the estimator holds. *)
Theorem at_most_one_reader acts :
  let self := run_actions acts lifecycle_init in
  forall t u, is_alive self t = true -> is_alive self u = true ->
              t = u /\ port_thread self = Some t.
Proof.
  intros self.
  assert (H : one_reader self).
  { unfold self, run_actions.
    assert (G : forall s, one_reader s ->
                  one_reader (fold_left (fun s a => act a s) acts s)).
    { induction acts as [|a acts IH]; intros s Hs; [exact Hs|].
      cbn [fold_left]. apply IH, one_reader_act, Hs. }
    apply G. intros t. unfold is_alive, lifecycle_init. cbn.
    destruct t; discriminate. }
  intros t u Ht Hu. pose proof (H t Ht) as Pt. pose proof (H u Hu) as Pu.
  split; [congruence | exact Pt].
Qed.

Lemma at_most_one_reader_witness :
  let self := run_actions [DoStart (Ok tt); DoStop false; DoStart (Ok tt);
                           DoStop true; DoStart (Ok tt)] lifecycle_init in
  1%nat = 1%nat /\ port_thread self = Some 1%nat.
Proof.
  apply (at_most_one_reader
           [DoStart (Ok tt); DoStop false; DoStart (Ok tt);
            DoStop true; DoStart (Ok tt)] 1%nat 1%nat); reflexivity.
Defined.

(** X19.  A second start right after a start does nothing at all, whatever
    the first one did; and a stop on an estimator that is not active does
    nothing either. *)
Theorem start_and_stop_are_idempotent spawn1 spawn2 ends_in_time self :
  start_reading_threads spawn2 (state_of (start_reading_threads spawn1 self))
  = (Ok tt, state_of (start_reading_threads spawn1 self), []) /\
  (port_active self = false ->
   stop_reading_threads ends_in_time self = (Ok tt, self, [])) /\
  stop_reading_threads ends_in_time lifecycle_init = (Ok tt, lifecycle_init, []).
Proof.
  split; [|split].
  - apply start_when_active, start_activates.
  - intros H. unfold stop_reading_threads, bind, get. cbn. rewrite H. reflexivity.
  - reflexivity.
Qed.

Lemma start_and_stop_are_idempotent_witness :
  stop_reading_threads true
    (state_of (stop_reading_threads false
                 (state_of (start_reading_threads (Ok tt) lifecycle_init))))
  = (Ok tt,
     state_of (stop_reading_threads false
                 (state_of (start_reading_threads (Ok tt) lifecycle_init))), []).
Proof.
  apply (proj1 (proj2 (start_and_stop_are_idempotent (Ok tt) (Ok tt) true _))).
  reflexivity.
Defined.

Lemma starts_when_active spawns : forall self,
  port_active self = true ->
  run_actions (map DoStart spawns) self = self.
Proof.
  induction spawns as [|sp spawns IH]; intros self H; [reflexivity|].
  cbn [map run_actions fold_left act].
  rewrite (start_when_active _ _ H). apply IH, H.
Qed.

(** X20.  When [Thread.start()] raises, the exception is printed and the
    estimator is left active without a reader: from then on further
    starts do nothing, so no reader runs until a stop has been made. *)
Theorem failed_start_leaves_no_reader e self spawns :
  is_Exception e = true ->
  port_active self = false ->
  (forall t, is_alive self t = false) ->
  start_reading_threads (Raise e) self
  = (Ok tt, state_of (start_reading_threads (Raise e) self),
     [PrintError "Exception! " e]) /\
  let after := run_actions (map DoStart spawns)
                 (state_of (start_reading_threads (Raise e) self)) in
  port_active after = true /\ forall t, is_alive after t = false.
Proof.
  intros He Ha Hd.
  assert (Hn : match port_thread self with
               | None => True
               | Some t => is_alive self t = false
               end) by (destruct (port_thread self); auto).
  pose proof (start_new_thread (Raise e) self Ha Hn) as S1.
  split.
  - destruct self as [a pt th]. cbn [port_active] in Ha. subst a.
    assert (C : match pt with
                | None => true
                | Some t => negb (nth t th false)
                end = true).
    { destruct pt as [t|]; [|reflexivity]. specialize (Hd t).
      unfold is_alive in Hd. cbn in Hd. now rewrite Hd. }
    unfold start_reading_threads, try_except, bind, get, modify, is_alive,
      set_port_active, new_thread, lift, emit, state_of.
    cbn [negb port_active port_thread threads]. rewrite C.
    cbn [fst snd]. rewrite He. reflexivity.
  - intros after. unfold after.
    rewrite starts_when_active by apply start_activates.
    split; [apply start_activates|].
    intros t. rewrite S1. unfold is_alive. cbn [threads].
    destruct (Nat.lt_ge_cases t (List.length (threads self))) as [L|L].
    + rewrite app_nth1 by exact L. apply Hd.
    + destruct (Nat.eq_dec t (List.length (threads self))) as [->|N].
      * rewrite app_nth2, Nat.sub_diag by lia. reflexivity.
      * apply nth_overflow. rewrite length_app. cbn. lia.
Qed.

Lemma failed_start_leaves_no_reader_witness :
  let after := run_actions (map DoStart [Ok tt; Ok tt])
                 (state_of (start_reading_threads
                              (Raise (SerialException "can't start new thread"))
                              lifecycle_init)) in
  port_active after = true /\ forall t, is_alive after t = false.
Proof.
  apply (failed_start_leaves_no_reader
           (SerialException "can't start new thread") lifecycle_init [Ok tt; Ok tt]).
  - reflexivity.
  - reflexivity.
  - intros [|t]; reflexivity.
Defined.

(** X21.  A stop whose join times out followed by a start gives back the
    state before the stop: the reader that was running is kept, no second
    thread is made.  A stop whose join succeeds followed by a start makes
    one new thread. *)
Theorem restart_reuses_or_replaces spawn self t :
  port_active self = true -> port_thread self = Some t ->
  is_alive self t = true ->
  run_actions [DoStop false; DoStart spawn] self = self /\
  run_actions [DoStop true; DoStart (Ok tt)] self
  = {| port_active := true;
       port_thread := Some (List.length (threads self));
       threads := (set_alive t false (threads self) ++ [true])%list |}.
Proof.
  intros Ha Ht Hl. split.
  - cbn [run_actions fold_left act]. rewrite stop_state, Ha, Ht, Hl. cbn [andb].
    rewrite (start_keeps_thread spawn (set_port_active false self) t eq_refl Ht Hl).
    destruct self as [a pt th]. cbn in Ha. subst a. reflexivity.
  - cbn [run_actions fold_left act]. rewrite stop_state, Ha, Ht, Hl. cbn [andb].
    rewrite start_new_thread.
    + unfold thread_exit, mark_thread, set_port_active. cbn [threads].
      f_equal. f_equal.
      clear. revert t. induction (threads self) as [|x l IH]; intros [|t];
        cbn; auto.
    + reflexivity.
    + unfold thread_exit, mark_thread, set_port_active.
      cbn [port_thread]. rewrite Ht.
      unfold is_alive, thread_exit, mark_thread, set_port_active.
      cbn [threads]. rewrite nth_set_alive, Nat.eqb_refl.
      cbn [andb]. unfold is_alive in Hl.
      destruct (t <? List.length (threads self))%nat eqn:L; [reflexivity|].
      apply Nat.ltb_ge in L. rewrite nth_overflow in Hl by exact L. discriminate.
Qed.

Lemma restart_reuses_or_replaces_witness :
  let self := state_of (start_reading_threads (Ok tt) lifecycle_init) in
  run_actions [DoStop false; DoStart (Ok tt)] self = self.
Proof.
  intros self.
  apply (proj1 (restart_reuses_or_replaces (Ok tt) self 0%nat
                  eq_refl eq_refl eq_refl)).
Defined.

(** ** [main] *)

Lemma start_from_init spawn :
  tame spawn ->
  result_of (start_reading_threads spawn lifecycle_init) = Ok tt /\
  port_active (state_of (start_reading_threads spawn lifecycle_init)) = true.
Proof.
  intros H. split; [|apply start_activates].
  destruct spawn as [[]|e|]; cbn in H; [reflexivity| |contradiction].
  unfold start_reading_threads, try_except, bind, get, modify, lift, result_of.
  cbn. rewrite H. reflexivity.
Qed.

Lemma on_lifecycle_eq {A} (c : M lifecycle A) l k :
  on_lifecycle c (l, k) = (result_of (c l), (state_of (c l), k), events_of (c l)).
Proof.
  unfold on_lifecycle, result_of, state_of, events_of. cbn [fst snd].
  destruct (c l) as [[r l'] ev]. reflexivity.
Qed.

Lemma on_console_eq {A} (c : M console A) l k :
  on_console c (l, k) = (result_of (c k), (l, state_of (c k)), events_of (c k)).
Proof.
  unfold on_console, result_of, state_of, events_of. cbn [fst snd].
  destruct (c k) as [[r k'] ev]. reflexivity.
Qed.

Lemma stop_result ends_in_time self :
  result_of (stop_reading_threads ends_in_time self) = Ok tt.
Proof.
  destruct self as [a pt th].
  unfold stop_reading_threads, bind, get, modify, is_alive, set_port_active,
    result_of.
  cbn [port_active port_thread threads].
  destruct a; [|reflexivity]. cbn [fst snd port_active port_thread threads].
  destruct pt as [t|]; [|reflexivity].
  destruct (nth t th false), ends_in_time; reflexivity.
Qed.

Lemma stop_deactivates ends_in_time self :
  port_active (state_of (stop_reading_threads ends_in_time self)) = false.
Proof.
  rewrite stop_state. destruct (port_active self) eqn:A; [|exact A].
  destruct (port_thread self) as [t|]; [|reflexivity].
  destruct (is_alive self t && ends_in_time); reflexivity.
Qed.

Lemma main_eq spawn before_seen after_seen ends_in_time keys :
  tame spawn ->
  let started := start_reading_threads spawn lifecycle_init in
  let run := run_hsi_calibration before_seen after_seen keys in
  let stopped := stop_reading_threads ends_in_time (state_of started) in
  main (Ok tt) spawn before_seen after_seen ends_in_time (lifecycle_init, keys)
  = match result_of run with
    | Ok _ =>
        (Ok tt, (state_of stopped, state_of run),
         (events_of started ++ events_of run ++ events_of stopped)%list)
    | Raise e =>
        (Raise e, (state_of started, state_of run),
         (events_of started ++ events_of run)%list)
    | Blocked =>
        (Blocked, (state_of started, state_of run),
         (events_of started ++ events_of run)%list)
    end.
Proof.
  intros Hs started run stopped.
  destruct (start_from_init spawn Hs) as [R1 _]. fold started in R1.
  pose proof (stop_result ends_in_time (state_of started)) as R3.
  fold stopped in R3.
  unfold main.
  rewrite (bind_lift_ok _ tt) by reflexivity.
  rewrite (bind_eq _ _ _ tt (state_of started, keys) (events_of started))
    by (rewrite on_lifecycle_eq; fold started; rewrite R1; reflexivity).
  unfold bind. rewrite on_console_eq. fold run.
  destruct (result_of run) as [[]|e|]; try reflexivity.
  rewrite on_lifecycle_eq. fold stopped. rewrite R3.
  unfold result_of, state_of, events_of. cbn [fst snd]. reflexivity.
Qed.

(** X22.  [main] stops the reader only after a run that has returned:
    when the run ends normally (the operator's early stops included) the
    estimator is left inactive; when the run ends with an exception, that
    exception leaves [main] and the estimator is left active, the stop
    never made.  When the serial port cannot be opened nothing is
    started. *)
Theorem main_stops_the_reader_only_after_a_return
    spawn before_seen after_seen ends_in_time keys :
  tame spawn ->
  let run := run_hsi_calibration before_seen after_seen keys in
  let m := main (Ok tt) spawn before_seen after_seen ends_in_time
             (lifecycle_init, keys) in
  snd (state_of m) = state_of run /\
  (result_of run = Ok tt ->
     result_of m = Ok tt /\ port_active (fst (state_of m)) = false) /\
  (forall e, result_of run = Raise e ->
     result_of m = Raise e /\ port_active (fst (state_of m)) = true) /\
  (forall e,
     main (Raise e) spawn before_seen after_seen ends_in_time (lifecycle_init, keys)
     = (Raise e, (lifecycle_init, keys), [])).
Proof.
  intros Hs run m. unfold m. rewrite (main_eq _ _ _ _ _ Hs). fold run.
  split; [|split; [|split]].
  - destruct (result_of run) as [[]|e|]; reflexivity.
  - intros ->. split; [reflexivity|]. apply stop_deactivates.
  - intros e ->. split; [reflexivity|]. apply start_activates.
  - intros e. reflexivity.
Qed.

Lemma main_stops_the_reader_only_after_a_return_witness :
  let m := main (Ok tt) (Ok tt) sample_hsi_1 sample_hsi_2 true
             (lifecycle_init, [Typed "y"; Typed "abc"]) in
  result_of m = Raise (ValueError "abc") /\ port_active (fst (state_of m)) = true.
Proof.
  refine (proj1 (proj2 (proj2 (main_stops_the_reader_only_after_a_return
            (Ok tt) sample_hsi_1 sample_hsi_2 true [Typed "y"; Typed "abc"] _)))
            (ValueError "abc") _).
  - exact I.
  - vm_compute. reflexivity.
Defined.
